(** * Discretised Brownian paths: a model of [sde/sde.py]

    The repository's core is the function [brown(T, N, N_ens=1)], which
    draws Gaussian increments from the process-wide NumPy random source
    and accumulates them, row by row, into sample paths.  This file
    embeds that function, together with the handful of NumPy operations
    it calls, and proves the properties listed in the specification.
    The script that calls [brown], plots the paths and prints their mean
    squared end point is embedded as well, with its output as a trace.

    The embedding is generic in the scalar type, so that the same
    definitions can be read over the specification's real numbers
    (where the algebraic statements are proved, for positive horizons)
    and over IEEE 754 binary64 (what NumPy computes with), where they
    run and where the behaviour at the two zeros and under rounding is
    proved. *)

From Stdlib Require Import Floats.
From Stdlib Require Import Reals Lra ZArith List Lia Bool.
Import ListNotations.

(** ** Scalars *)

(** The arithmetic [brown] needs from its number type: the constant [0.],
    [+] (inside [cumsum] and [normal]), [*] (inside [normal]), [/] and
    [np.sqrt]; the conversion of a Python [int] used by [T / N]; and
    the sign test behind [normal]'s check of its [scale] argument. *)
Class Scalar (F : Type) : Type := {
  fzero : F;
  fadd : F -> F -> F;
  fmul : F -> F -> F;
  fdiv : F -> F -> F;
  fsqrt : F -> F;
  of_int : Z -> F;
  fneg : F -> bool
}.

(** The equations of exact arithmetic the proofs rely on. *)
Class ExactScalar (F : Type) `{Scalar F} : Prop := {
  fadd_zero_l : forall x : F, fadd fzero x = x;
  fmul_zero_l : forall x : F, fmul fzero x = fzero;
  fdiv_zero_l : forall x : F, fdiv fzero x = fzero;
  fsqrt_zero : fsqrt fzero = fzero;
  fneg_sqrt : forall x : F, fneg (fsqrt x) = false
}.

(** The specification's scalars: real numbers.  They have no signed
    zero and no NaN, and they do not round; the statements about the
    reals below are about horizons [T > 0], or do not depend on the
    value of the square root.  What happens at the two zeros, and what
    rounding does to the scenario of the specification, is stated over
    binary64. *)
#[export] Instance R_scalar : Scalar R := {
  fzero := 0%R;
  fadd := Rplus;
  fmul := Rmult;
  fdiv := Rdiv;
  fsqrt := sqrt;
  of_int := IZR;
  fneg := fun x => if Rlt_dec x 0 then true else false
}.

(** NumPy's scalars: IEEE 754 binary64.  A Python [int] converts to the
    nearest double; [normal] rejects a scale whose sign bit is set,
    unless it is a NaN. *)
#[export] Instance binary64_scalar : Scalar float := {
  fzero := 0%float;
  fadd := PrimFloat.add;
  fmul := PrimFloat.mul;
  fdiv := PrimFloat.div;
  fsqrt := PrimFloat.sqrt;
  of_int := fun z => SF2Prim (binary_normalize prec emax z 0 false);
  fneg := fun x => negb (is_nan x) && get_sign x
}.

(** ** Exceptions and the global random state *)

Inductive exn : Type :=
| ZeroDivisionError
| ValueError.

Inductive outcome (A : Type) : Type :=
| Returned (a : A)
| Raised (e : exn).

Arguments Returned {A} a.
Arguments Raised {A} e.

(** A computation reads and updates the state of the random source; a
    raised exception leaves the state as it was when it was raised. *)
Definition M (St A : Type) : Type := St -> outcome A * St.

Definition ret {St A : Type} (a : A) : M St A := fun s => (Returned a, s).

Definition bind {St A B : Type} (c : M St A) (k : A -> M St B) : M St B :=
  fun s =>
    match c s with
    | (Returned a, s') => k a s'
    | (Raised e, s') => (Raised e, s')
    end.

Definition lift {St A : Type} (o : outcome A) : M St A := fun s => (o, s).

Declare Scope py_scope.
Delimit Scope py_scope with py.
Notation "x <- c ;; k" := (bind c (fun x => k))
  (at level 61, c at next level, right associativity) : py_scope.
Local Open Scope py_scope.

Definition fails {A : Type} (o : outcome A) : Prop :=
  match o with
  | Returned _ => False
  | Raised _ => True
  end.

Section Core.

Context {F : Type} `{Scalar F}.

(** ** Two-dimensional arrays *)

(** An array carries its shape next to its rows, as NumPy does: an array
    without rows still has a number of columns. *)
Record ndarray : Type := mk_ndarray {
  shape : nat * nat;
  data : list (list F)
}.

Definition has_shape (a : ndarray) (r c : nat) : Prop :=
  shape a = (r, c) /\ length (data a) = r /\
  Forall (fun row => length row = c) (data a).

(** [a[k, j]] for indices counted from zero; [None] stands for the
    [IndexError] of an index out of range. *)
Definition item (a : ndarray) (k j : nat) : option F :=
  if (k <? fst (shape a))%nat && (j <? snd (shape a))%nat then
    match nth_error (data a) k with
    | Some row => nth_error row j
    | None => None
    end
  else None.

(** [np.zeros((r, c))] *)
Definition np_zeros (size : Z * Z) : outcome ndarray :=
  let (r, c) := size in
  if (r <? 0)%Z || (c <? 0)%Z then Raised ValueError
  else Returned
         {| shape := (Z.to_nat r, Z.to_nat c);
            data := repeat (repeat fzero (Z.to_nat c)) (Z.to_nat r) |}.

(** [np.add.accumulate] along one row: the first entry is copied, every
    later one is the previous output plus the current input. *)
Fixpoint accumulate (acc : F) (l : list F) : list F :=
  match l with
  | [] => []
  | x :: t => let s := fadd acc x in s :: accumulate s t
  end.

Definition cumsum (l : list F) : list F :=
  match l with
  | [] => []
  | x :: t => x :: accumulate x t
  end.

(** [np.cumsum(a, axis=1)] *)
Definition np_cumsum_axis1 (a : ndarray) : ndarray :=
  {| shape := shape a; data := map cumsum (data a) |}.

(** Broadcasting of a value of shape [vs] to a target of shape [ts]:
    every axis of the value has the target's length or length one. *)
Definition broadcastable (vs ts : nat * nat) : bool :=
  ((fst vs =? fst ts)%nat || (fst vs =? 1)%nat) &&
  ((snd vs =? snd ts)%nat || (snd vs =? 1)%nat).

(** An axis of length one is read with stride zero. *)
Definition bidx (vdim i : nat) : nat := if (vdim =? 1)%nat then 0%nat else i.

(** [W[:, 1:] = V] *)
Definition setitem_cols_from_1 (W V : ndarray) : outcome ndarray :=
  let (r, c) := shape W in
  if broadcastable (shape V) (r, (c - 1)%nat) then
    Returned
      {| shape := shape W;
         data :=
           map (fun k =>
                  firstn 1 (nth k (data W) []) ++
                  map (fun j =>
                         nth (bidx (snd (shape V)) j)
                             (nth (bidx (fst (shape V)) k) (data V) [])
                             fzero)
                      (seq 0 (c - 1)))
               (seq 0 r) |}
  else Raised ValueError.

(** [T / N] for a Python [float] and a Python [int]: division by the
    integer zero raises, any other divisor is converted first.  The
    conversion is that of integers within the range of a double; beyond
    it Python raises an [OverflowError], so the statements about
    binary64 below keep [N] within the machine integers. *)
Definition py_truediv (T : F) (N : Z) : outcome F :=
  if (N =? 0)%Z then Raised ZeroDivisionError
  else Returned (fdiv T (of_int N)).

(** ** The random source *)

(** What [brown] and its callers use of [numpy.random]: [seed(n)] and
    [normal(loc, scale, size)].  The module is looked up when [brown]
    runs, so a test can put a stub in its place. *)
Record RandomSource : Type := {
  rng_state : Type;
  seed : Z -> rng_state -> rng_state;
  normal : F -> F -> Z * Z -> M rng_state ndarray
}.

(** ** The path generator *)

(** [def brown(T, N, N_ens=1)] *)
Definition brown (rs : RandomSource) (T : F) (N N_ens : Z)
  : M (rng_state rs) (ndarray * ndarray) :=
  dt <- lift (py_truediv T N) ;;
  let sqrt_dt := fsqrt dt in
  dW <- normal rs fzero sqrt_dt (N_ens, N) ;;
  W <- lift (np_zeros (N_ens, (N + 1)%Z)) ;;
  W <- lift (setitem_cols_from_1 W (np_cumsum_axis1 dW)) ;;
  ret (W, dW).

(** A call site: the third argument may be left out. *)
Definition call_brown (rs : RandomSource) (T : F) (N : Z) (N_ens : option Z)
  : M (rng_state rs) (ndarray * ndarray) :=
  brown rs T N (match N_ens with Some n => n | None => 1%Z end).

(** ** NumPy's legacy global generator *)

(** The generator, seen from [normal]: the sequence of standard normal
    variates it is going to produce, and how many were consumed. *)
Record mt_state : Type := mk_mt_state {
  variates : nat -> F;
  drawn : nat
}.

(** [gauss n] is the sequence of standard normal variates produced after
    [seed(n)], for the seeds [random.seed] accepts, [0 <= n < 2**32]. *)
Variable gauss : Z -> nat -> F.

(** [random.seed(n)] replaces the state, whatever it was. *)
Definition np_seed (n : Z) (_ : mt_state) : mt_state :=
  {| variates := gauss n; drawn := 0 |}.

(** The rows [normal] fills, in C order, each entry being
    [loc + scale * z] for the next variate [z]. *)
Definition normal_rows (loc scale : F) (nr nc : nat) (s : mt_state)
  : list (list F) :=
  map (fun k =>
         map (fun j =>
                fadd loc
                     (fmul scale (variates s (drawn s + k * nc + j)%nat)))
             (seq 0 nc))
      (seq 0 nr).

(** [random.normal(loc, scale, size)] for a two-dimensional [size]: a
    negative scale and a negative dimension are refused with
    [ValueError] before anything is drawn. *)
Definition np_normal (loc scale : F) (size : Z * Z) : M mt_state ndarray :=
  fun s =>
    let (r, c) := size in
    if fneg scale then (Raised ValueError, s)
    else if (r <? 0)%Z || (c <? 0)%Z then (Raised ValueError, s)
    else
      let nr := Z.to_nat r in
      let nc := Z.to_nat c in
      (Returned {| shape := (nr, nc);
                   data := normal_rows loc scale nr nc s |},
       {| variates := variates s; drawn := (drawn s + nr * nc)%nat |}).

Definition numpy_random : RandomSource :=
  {| rng_state := mt_state; seed := np_seed; normal := np_normal |}.

(** ** A stubbed random source *)

(** [normal] replaced by a function that returns a prepared array and
    draws nothing. *)
Definition stub_random (increments : ndarray) : RandomSource :=
  {| rng_state := unit;
     seed := fun _ s => s;
     normal := fun _ _ _ => ret increments |}.

(** ** Seeded sessions *)

(** [random.seed(n); brown(T, N, N_ens)] *)
Definition seeded_brown (rs : RandomSource) (n : Z) (T : F) (N N_ens : Z)
  : M (rng_state rs) (ndarray * ndarray) :=
  fun s => brown rs T N N_ens (seed rs n s).

(** The same seeded call made twice in a row; the outcomes of both
    calls are kept, whether they returned or raised. *)
Definition seeded_twice (rs : RandomSource) (n : Z) (T : F) (N N_ens : Z)
  (s : rng_state rs)
  : outcome (ndarray * ndarray) * outcome (ndarray * ndarray) :=
  let (o1, s1) := seeded_brown rs n T N N_ens s in
  let (o2, _) := seeded_brown rs n T N N_ens s1 in
  (o1, o2).

End Core.

Arguments ndarray : clear implicits.
Arguments RandomSource : clear implicits.
Arguments mt_state : clear implicits.

(** ** The script *)

(** What the script under [if __name__ == "__main__"] needs beyond
    [brown]'s arithmetic: the [-] and the test [== 0] inside
    [np.linspace]. *)
Class GridScalar (F : Type) `{Scalar F} : Type := {
  fsub : F -> F -> F;
  fis_zero : F -> bool
}.

#[export] Instance R_grid : GridScalar R := {
  fsub := Rminus;
  fis_zero := fun x => if Req_dec_T x 0 then true else false
}.

#[export] Instance binary64_grid : GridScalar float := {
  fsub := PrimFloat.sub;
  fis_zero := fun x => PrimFloat.eqb x 0
}.

(** The script can also end in an [IndexError], which [brown] cannot. *)
Inductive script_exn : Type :=
| Builtin (e : exn)
| IndexError.

(** A step of the script: it ends normally ([inl]) or with an uncaught
    exception ([inr]), and leaves a new state of the world. *)
Definition Script (St A : Type) : Type := St -> (A + script_exn) * St.

Definition sret {St A : Type} (a : A) : Script St A := fun w => (inl a, w).

Definition sbind {St A B : Type} (c : Script St A) (k : A -> Script St B)
  : Script St B :=
  fun w =>
    match c w with
    | (inl a, w') => k a w'
    | (inr e, w') => (inr e, w')
    end.

Definition sraise {St A : Type} (e : script_exn) : Script St A :=
  fun w => (inr e, w).

Notation "x <~ c ;; k" := (sbind c (fun x => k))
  (at level 61, c at next level, right associativity) : py_scope.

(** A loop [for k in ks: body(k)]: the first exception ends it. *)
Fixpoint for_each {St : Type} (ks : list nat) (body : nat -> Script St unit)
  : Script St unit :=
  match ks with
  | [] => sret tt
  | k :: ks' => _ <~ body k ;; for_each ks' body
  end.

Section ScriptDefs.

Context {F : Type} `{GridScalar F}.

(** The sum of a sequence, added up from the left, starting from zero. *)
Definition fsum (l : list F) : F := fold_left fadd l fzero.

(** [np.arange(0, num)] as floating-point numbers. *)
Definition np_arange (num : nat) : list F :=
  map (fun i => of_int (Z.of_nat i)) (seq 0 num).

(** [np.linspace(start, stop, num)]: the integers [0 .. num-1] times the
    step, plus [start], with the last sample overwritten by [stop].  A
    step that comes out as zero makes NumPy divide before it multiplies;
    fewer than two samples have no step. *)
Definition np_linspace (start stop : F) (num : Z) : outcome (list F) :=
  if (num <? 0)%Z then Raised ValueError
  else
    let div := (num - 1)%Z in
    let delta := fsub stop start in
    let y := np_arange (Z.to_nat num) in
    let y :=
      if (0 <? div)%Z then
        let step := fdiv delta (of_int div) in
        if fis_zero step then
          map (fun v => fmul (fdiv v (of_int div)) delta) y
        else map (fun v => fmul v step) y
      else map (fun v => fmul v delta) y in
    let y := map (fun v => fadd v start) y in
    Returned (if (1 <? num)%Z then removelast y ++ [stop] else y).

(** [a[k, :]] *)
Definition getrow (a : ndarray F) (k : nat) : option (list F) :=
  if (k <? fst (shape a))%nat then nth_error (data a) k else None.

(** [a[:, -1]]: an array without columns has no last one. *)
Definition last_column (a : ndarray F) : option (list F) :=
  match snd (shape a) with
  | O => None
  | S c => Some (map (fun row => nth c row fzero) (data a))
  end.

(** [np.sum(v**2)]; NumPy adds in an order of its own, which exact
    arithmetic cannot tell from the order of [fsum]. *)
Definition sum_of_squares (v : list F) : F :=
  fsum (map (fun x => fmul x x) v).

(** What the script shows: the curves handed to [plt.plot], the value
    handed to [print], and the call of [plt.show]. *)
Inductive event : Type :=
| Plot (x y : list F)
| Print (v : F)
| Show.

(** The world of the script: the random source and the output so far. *)
Definition world (rs : RandomSource F) : Type :=
  (rng_state rs * list event)%type.

Definition emit {rs : RandomSource F} (e : event) : Script (world rs) unit :=
  fun w => (inl tt, (fst w, snd w ++ [e])).

(** [random.seed(n)] *)
Definition do_seed (rs : RandomSource F) (n : Z) : Script (world rs) unit :=
  fun w => (inl tt, (seed rs n (fst w), snd w)).

(** A computation on the random source, run inside the script. *)
Definition on_source {rs : RandomSource F} {A : Type} (c : M (rng_state rs) A)
  : Script (world rs) A :=
  fun w =>
    match c (fst w) with
    | (Returned a, s') => (inl a, (s', snd w))
    | (Raised e, s') => (inr (Builtin e), (s', snd w))
    end.

Definition or_index_error {St A : Type} (o : option A) : Script St A :=
  match o with
  | Some a => sret a
  | None => sraise IndexError
  end.

(** [plt.plot(x, y)]: the two sequences must be equally long. *)
Definition plt_plot {rs : RandomSource F} (x y : list F)
  : Script (world rs) unit :=
  if (length x =? length y)%nat then emit (Plot x y)
  else sraise (Builtin ValueError).

(** The script, with its four constants as parameters. *)
Definition script (rs : RandomSource F) (seed_value : Z) (T : F)
  (N N_ens : Z) : Script (world rs) unit :=
  _ <~ do_seed rs seed_value ;;
  t <~ on_source (lift (np_linspace fzero (of_int 1) (N + 1))) ;;
  W_dW <~ on_source (brown rs T N N_ens) ;;
  let W_ens := fst W_dW in
  _ <~ for_each (seq 0 (Z.to_nat N_ens))
         (fun k => row <~ or_index_error (getrow W_ens k) ;;
                   plt_plot t row) ;;
  ends <~ or_index_error (last_column W_ens) ;;
  _ <~ emit (Print (fdiv (sum_of_squares ends) (of_int N_ens))) ;;
  emit Show.

(** The script as it stands: seed [0], [T = 1.], [N = 500] and
    [N_ens = 100]. *)
Definition main (rs : RandomSource F) : Script (world rs) unit :=
  script rs 0 (of_int 1) 500 100.

End ScriptDefs.

Arguments event : clear implicits.

(** ** Concrete inputs *)

(** A generator whose every seed yields the variates [0, 1, 2, ...], and
    one of its states. *)
Definition ramp_gauss : Z -> nat -> R := fun _ i => INR i.

Definition ramp_state : mt_state R := {| variates := INR; drawn := 0 |}.

(** The increments of the specification's scenario, over the reals and
    as the nearest doubles. *)
Definition scenario_increments : ndarray R :=
  {| shape := (1%nat, 4%nat);
     data := [[0.1; -0.2; 0.3; 0.05]%R] |}.

Definition scenario_increments_binary64 : ndarray float :=
  {| shape := (1%nat, 4%nat);
     data := [[0x1.999999999999ap-4; -0x1.999999999999ap-3;
               0x1.3333333333333p-2; 0x1.999999999999ap-5]%float] |}.

(** An array of two rows and three columns, for a stub that ignores the
    size it is asked for. *)
Definition misshaped_increments : ndarray R :=
  {| shape := (2%nat, 3%nat); data := [[1; 2; 3]; [4; 5; 6]]%R |}.

(** A binary64 generator state whose variates are [-2, -1, 0, 1, ...]. *)
Definition binary64_state : mt_state float :=
  {| variates := fun i => of_int (Z.of_nat i - 2); drawn := 0 |}.

(** A binary64 generator state whose variates alternate in sign. *)
Definition alternating_state : mt_state float :=
  {| variates := fun i => if Nat.even i then 1.5%float else (-2)%float;
     drawn := 0 |}.

(** ** Signs of doubles *)

(** A double, seen through its specification, that is not negative: a
    NaN, or a zero, a finite number or an infinity with a clear sign
    bit. *)
Definition sf_nonneg (x : spec_float) : bool :=
  match x with
  | S754_nan => true
  | S754_zero s | S754_infinity s | S754_finite s _ _ => negb s
  end.

(** A positive double: finite and not zero, or infinite, with a clear
    sign bit. *)
Definition sf_pos (x : spec_float) : bool :=
  match x with
  | S754_infinity false | S754_finite false _ _ => true
  | _ => false
  end.

(** A step count or an ensemble size NumPy can take as a dimension. *)
Definition machine_int (n : Z) : bool :=
  ((- 2 ^ 63 <=? n) && (n <? 2 ^ 63))%Z.

(** A step count the program can divide by and allocate: positive,
    within the machine integers, and converted to a positive double (as
    every such integer is). *)
Definition usable_steps (N : Z) : bool :=
  (0 <? N)%Z && machine_int N && (0 <? of_int N)%float.

(** * Properties *)

#[export] Instance R_exact : ExactScalar R.
Proof.
  split; simpl; intros.
  - lra.
  - lra.
  - unfold Rdiv. lra.
  - apply sqrt_0.
  - destruct (Rlt_dec (sqrt x) 0) as [Hlt|_]; [|reflexivity].
    pose proof (sqrt_pos x). lra.
Qed.

(** ** Lists *)

Lemma map_nth_seq {A B : Type} (g : A -> B) (d : A) (l : list A) :
  map (fun i => g (nth i l d)) (seq 0 (length l)) = map g l.
Proof.
  induction l as [|x l IH]; simpl; [reflexivity|].
  f_equal. rewrite <- seq_shift, map_map. exact IH.
Qed.

Lemma nth_repeat_lt {A : Type} (a d : A) (n k : nat) :
  (k < n)%nat -> nth k (repeat a n) d = a.
Proof.
  revert k. induction n as [|n IH]; intros k Hk; [lia|].
  destruct k as [|k]; simpl; [reflexivity|]. apply IH. lia.
Qed.

Lemma nth_map_seq {A : Type} (g : nat -> A) (d : A) (n i : nat) :
  (i < n)%nat -> nth i (map g (seq 0 n)) d = g i.
Proof.
  intros Hi.
  rewrite (nth_indep _ d (g 0%nat)) by (rewrite length_map, length_seq; lia).
  rewrite (map_nth g (seq 0 n) 0%nat i), seq_nth by lia. reflexivity.
Qed.

Lemma map_const_seq_any {A : Type} (a : A) (g : nat -> A) (n : nat) :
  (forall k, (k < n)%nat -> g k = a) -> map g (seq 0 n) = repeat a n.
Proof.
  intros Hg. apply (nth_ext _ _ a a).
  - now rewrite length_map, length_seq, repeat_length.
  - intros k Hk. rewrite length_map, length_seq in Hk.
    rewrite nth_map_seq, nth_repeat_lt by lia. now apply Hg.
Qed.

Lemma bidx_lt (n i : nat) : (i < n)%nat -> bidx n i = i.
Proof.
  intros Hi. unfold bidx. destruct (Nat.eqb_spec n 1); [lia|reflexivity].
Qed.

Section CoreFacts.

Context {F : Type} `{ExactScalar F}.

(** ** Prefix sums *)

Lemma accumulate_length (l : list F) :
  forall a, length (accumulate a l) = length l.
Proof.
  induction l as [|x l IH]; intros a; simpl; [reflexivity|].
  now rewrite IH.
Qed.

Lemma cumsum_length (l : list F) : length (cumsum l) = length l.
Proof.
  destruct l as [|x l]; simpl; [reflexivity|].
  now rewrite accumulate_length.
Qed.

(** Every output of [accumulate] is the output before it (the carried-in
    value for the first one) plus the input at the same place. *)
Lemma nth_accumulate (d : F) (l : list F) :
  forall a j, (j < length l)%nat ->
    nth j (accumulate a l) d =
    fadd (nth j (a :: accumulate a l) d) (nth j l d).
Proof.
  induction l as [|x l IH]; intros a j Hj; simpl in Hj; [lia|].
  destruct j as [|j]; [reflexivity|].
  cbn [accumulate nth]. rewrite IH by lia. reflexivity.
Qed.

Lemma nth_cumsum_0 (d : F) (l : list F) : nth 0 (cumsum l) d = nth 0 l d.
Proof. destruct l; reflexivity. Qed.

Lemma nth_cumsum_S (d : F) (l : list F) (j : nat) :
  (S j < length l)%nat ->
  nth (S j) (cumsum l) d = fadd (nth j (cumsum l) d) (nth (S j) l d).
Proof.
  destruct l as [|x l]; simpl; intros Hj; [lia|].
  apply nth_accumulate. lia.
Qed.

(** A path row is a zero followed by the prefix sums of its increments:
    each entry is the one before it plus the increment between them. *)
Lemma path_row_step (d : F) (row : list F) (j : nat) :
  (j < length row)%nat ->
  nth (S j) (fzero :: cumsum row) d =
  fadd (nth j (fzero :: cumsum row) d) (nth j row d).
Proof.
  intros Hj. destruct j as [|j].
  - cbn [nth]. rewrite nth_cumsum_0, fadd_zero_l. reflexivity.
  - change (nth (S (S j)) (fzero :: cumsum row) d)
      with (nth (S j) (cumsum row) d).
    change (nth (S j) (fzero :: cumsum row) d) with (nth j (cumsum row) d).
    apply nth_cumsum_S. exact Hj.
Qed.

Lemma cumsum_repeat_zero (n : nat) :
  cumsum (repeat fzero n) = repeat (fzero : F) n.
Proof.
  destruct n as [|n]; [reflexivity|]. simpl. f_equal.
  induction n as [|n IH]; [reflexivity|].
  simpl. rewrite fadd_zero_l. f_equal. exact IH.
Qed.

(** ** Arrays *)

Lemma item_rows (d : F) (r c : nat) (rows : list (list F)) (k j : nat) :
  length rows = r -> Forall (fun row => length row = c) rows ->
  (k < r)%nat -> (j < c)%nat ->
  item {| shape := (r, c); data := rows |} k j =
  Some (nth j (nth k rows []) d).
Proof.
  intros Hr Hc Hk Hj. unfold item. cbn [shape data fst snd].
  destruct (Nat.ltb_spec k r); [|lia].
  destruct (Nat.ltb_spec j c); [|lia]. cbn [andb].
  rewrite (nth_error_nth' rows []) by lia.
  apply nth_error_nth'.
  rewrite Forall_forall in Hc. rewrite Hc; [lia|].
  apply nth_In. lia.
Qed.

Lemma has_shape_cumsum (a : ndarray F) (r c : nat) :
  has_shape a r c -> has_shape (np_cumsum_axis1 a) r c.
Proof.
  intros (Hs & Hl & Hr). repeat split; cbn [np_cumsum_axis1 shape data].
  - exact Hs.
  - now rewrite length_map.
  - rewrite Forall_map. eapply Forall_impl; [|exact Hr].
    intros row Hrow. now rewrite cumsum_length.
Qed.

(** Writing an array of shape [(nr, nc)] into columns [1..nc] of a zero
    array of shape [(nr, nc+1)] puts a zero in front of each of its rows. *)
Lemma setitem_zeros (V : ndarray F) (nr nc : nat) :
  has_shape V nr nc ->
  setitem_cols_from_1
    {| shape := (nr, S nc); data := repeat (repeat fzero (S nc)) nr |} V =
  Returned {| shape := (nr, S nc); data := map (cons fzero) (data V) |}.
Proof.
  intros (Hs & Hl & Hr). unfold setitem_cols_from_1.
  cbn [shape data]. rewrite Hs. cbn [fst snd].
  replace (S nc - 1)%nat with nc by lia.
  unfold broadcastable. cbn [fst snd]. rewrite !Nat.eqb_refl. cbn [orb andb].
  do 2 f_equal.
  rewrite <- (map_nth_seq (cons fzero) [] (data V)), Hl.
  apply map_ext_in. intros k Hk. apply in_seq in Hk.
  rewrite nth_repeat_lt by lia. cbn [repeat firstn app].
  f_equal. rewrite bidx_lt by lia.
  assert (Hrow : length (nth k (data V) []) = nc).
  { rewrite Forall_forall in Hr. apply Hr, nth_In. lia. }
  transitivity (map (fun j => nth j (nth k (data V) []) fzero) (seq 0 nc)).
  - apply map_ext_in. intros j Hj. apply in_seq in Hj.
    now rewrite bidx_lt by lia.
  - rewrite <- Hrow, (map_nth_seq (fun x => x)). apply map_id.
Qed.

Lemma path_item (d : F) (nr nc : nat) (rows : list (list F)) (k j : nat) :
  length rows = nr -> Forall (fun row => length row = nc) rows ->
  (k < nr)%nat -> (j < S nc)%nat ->
  item {| shape := (nr, S nc);
          data := map (fun row => fzero :: cumsum row) rows |} k j =
  Some (nth j (fzero :: cumsum (nth k rows [])) d).
Proof.
  intros Hr Hc Hk Hj.
  rewrite (item_rows d nr (S nc)); try lia.
  - rewrite (nth_indep _ [] (fzero :: cumsum [])) by (rewrite length_map; lia).
    now rewrite (map_nth (fun row => fzero :: cumsum row)).
  - now rewrite length_map.
  - rewrite Forall_map. eapply Forall_impl; [|exact Hc].
    intros row Hrow. cbn [length]. now rewrite cumsum_length, Hrow.
Qed.

Lemma path_matrix_shape (nr nc : nat) (rows : list (list F)) :
  length rows = nr -> Forall (fun row => length row = nc) rows ->
  has_shape {| shape := (nr, S nc);
               data := map (fun row => fzero :: cumsum row) rows |}
            nr (S nc).
Proof.
  intros Hl Hr. split; [reflexivity|]. cbn [data]. split.
  - now rewrite length_map.
  - rewrite Forall_map. eapply Forall_impl; [|exact Hr].
    intros row Hrow. cbn [length]. now rewrite cumsum_length, Hrow.
Qed.

(** ** The NumPy generator *)

Lemma normal_rows_shape (loc scale : F) (nr nc : nat) (s : mt_state F) :
  has_shape {| shape := (nr, nc); data := normal_rows loc scale nr nc s |}
            nr nc.
Proof.
  repeat split; cbn [shape data]; unfold normal_rows.
  - now rewrite length_map, length_seq.
  - rewrite Forall_map, Forall_forall. intros k _.
    now rewrite length_map, length_seq.
Qed.

Lemma nth_normal_rows (d : F) (loc scale : F) (nr nc : nat) (s : mt_state F)
  (k j : nat) :
  (k < nr)%nat -> (j < nc)%nat ->
  nth j (nth k (normal_rows loc scale nr nc s) []) d =
  fadd loc (fmul scale (variates s (drawn s + k * nc + j)%nat)).
Proof.
  intros Hk Hj. unfold normal_rows.
  rewrite nth_map_seq by lia. now rewrite nth_map_seq by lia.
Qed.

Variable gauss : Z -> nat -> F.

(** With a positive step count and a non-negative ensemble size the call
    returns, and this is what it returns. *)
Lemma brown_numpy_run (T : F) (N N_ens : Z) (s : mt_state F) :
  (0 < N)%Z -> (0 <= N_ens)%Z ->
  let nr := Z.to_nat N_ens in
  let nc := Z.to_nat N in
  let rows := normal_rows fzero (fsqrt (fdiv T (of_int N))) nr nc s in
  brown (numpy_random gauss) T N N_ens s =
  (Returned ({| shape := (nr, S nc);
                data := map (fun row => fzero :: cumsum row) rows |},
             {| shape := (nr, nc); data := rows |}),
   {| variates := variates s; drawn := (drawn s + nr * nc)%nat |}).
Proof.
  intros HN HE nr nc rows.
  unfold brown, bind, lift, ret, py_truediv.
  destruct (Z.eqb_spec N 0) as [->|_]; [lia|].
  cbn [numpy_random normal]. unfold np_normal. rewrite fneg_sqrt.
  destruct (Z.ltb_spec N_ens 0); [lia|].
  destruct (Z.ltb_spec N 0); [lia|]. cbn [orb].
  unfold np_zeros.
  destruct (Z.ltb_spec N_ens 0); [lia|].
  destruct (Z.ltb_spec (N + 1) 0); [lia|]. cbn [orb].
  replace (Z.to_nat (N + 1)) with (S nc) by (subst nc; lia).
  fold nr nc rows.
  rewrite (@setitem_zeros (np_cumsum_axis1
             {| shape := (nr, nc); data := rows |}) nr nc).
  - cbn [np_cumsum_axis1 data]. now rewrite map_map.
  - apply has_shape_cumsum, normal_rows_shape.
Qed.

End CoreFacts.

(** ** Argument errors *)

Section Errors.

Context {F : Type} `{Scalar F}.

Variable gauss : Z -> nat -> F.

(** A zero step count stops the call at [T / N]. *)
Lemma brown_zero_steps (T : F) (N_ens : Z) (s : mt_state F) :
  brown (numpy_random gauss) T 0 N_ens s = (Raised ZeroDivisionError, s).
Proof. reflexivity. Qed.

(** A negative dimension is refused by [normal], whatever the scale. *)
Lemma brown_negative_size (T : F) (N N_ens : Z) (s : mt_state F) :
  N <> 0%Z -> (N < 0)%Z \/ (N_ens < 0)%Z ->
  brown (numpy_random gauss) T N N_ens s = (Raised ValueError, s).
Proof.
  intros HN Hneg. unfold brown, bind, lift, py_truediv.
  destruct (Z.eqb_spec N 0); [contradiction|].
  cbn [numpy_random normal]. unfold np_normal.
  destruct (fneg _); [reflexivity|].
  destruct (Z.ltb_spec N_ens 0); [reflexivity|].
  destruct (Z.ltb_spec N 0); [reflexivity|]. lia.
Qed.

End Errors.

(** ** The check of the scale *)

Section ScaleCheck.

Context {F : Type} `{Scalar F}.

Variable gauss : Z -> nat -> F.

(** The call returns as soon as [normal] accepts the scale. *)
Lemma brown_accepted_scale (T : F) (N N_ens : Z) (s : mt_state F) :
  (0 < N)%Z -> (0 <= N_ens)%Z ->
  fneg (fsqrt (fdiv T (of_int N))) = false ->
  brown (numpy_random gauss) T N N_ens s =
  (Returned
     ({| shape := (Z.to_nat N_ens, S (Z.to_nat N));
         data := map (fun row => fzero :: cumsum row)
                     (normal_rows fzero (fsqrt (fdiv T (of_int N)))
                                  (Z.to_nat N_ens) (Z.to_nat N) s) |},
      {| shape := (Z.to_nat N_ens, Z.to_nat N);
         data := normal_rows fzero (fsqrt (fdiv T (of_int N)))
                             (Z.to_nat N_ens) (Z.to_nat N) s |}),
   {| variates := variates s;
      drawn := (drawn s + Z.to_nat N_ens * Z.to_nat N)%nat |}).
Proof.
  intros HN HE Hscale.
  unfold brown, bind, lift, ret, py_truediv.
  destruct (Z.eqb_spec N 0) as [->|_]; [lia|].
  cbn [numpy_random normal]. unfold np_normal. rewrite Hscale.
  destruct (Z.ltb_spec N_ens 0); [lia|].
  destruct (Z.ltb_spec N 0); [lia|]. cbn [orb].
  unfold np_zeros.
  destruct (Z.ltb_spec N_ens 0); [lia|].
  destruct (Z.ltb_spec (N + 1) 0); [lia|]. cbn [orb].
  replace (Z.to_nat (N + 1)) with (S (Z.to_nat N)) by lia.
  rewrite (setitem_zeros (np_cumsum_axis1 _) (Z.to_nat N_ens) (Z.to_nat N))
    by apply has_shape_cumsum, normal_rows_shape.
  cbn [np_cumsum_axis1 data]. now rewrite map_map.
Qed.

(** A scale that [normal] refuses stops the call before anything is
    drawn. *)
Lemma brown_refused_scale (T : F) (N N_ens : Z) (s : mt_state F) :
  N <> 0%Z ->
  fneg (fsqrt (fdiv T (of_int N))) = true ->
  brown (numpy_random gauss) T N N_ens s = (Raised ValueError, s).
Proof.
  intros HN Hscale. unfold brown, bind, lift, py_truediv.
  destruct (Z.eqb_spec N 0); [contradiction|].
  cbn [numpy_random normal]. unfold np_normal. now rewrite Hscale.
Qed.

(** Increments that are all zero give paths that are all zero. *)
Lemma zero_rows (scale : F) (nr nc : nat) (s : mt_state F) :
  (forall i, fadd fzero (fmul scale (variates s i)) = fzero) ->
  normal_rows fzero scale nr nc s = repeat (repeat fzero nc) nr.
Proof.
  intros Hz. unfold normal_rows.
  apply map_const_seq_any. intros k _.
  apply map_const_seq_any. intros j _. apply Hz.
Qed.

Lemma cumsum_zeros (n : nat) :
  fadd fzero fzero = fzero ->
  cumsum (repeat fzero n) = repeat (fzero : F) n.
Proof.
  intros Hz. destruct n as [|n]; [reflexivity|]. cbn. f_equal.
  induction n as [|n IH]; [reflexivity|].
  cbn. rewrite Hz. f_equal. exact IH.
Qed.

Lemma zero_paths (nr nc : nat) :
  fadd fzero fzero = fzero ->
  map (fun row => fzero :: cumsum row) (repeat (repeat fzero nc) nr) =
  repeat (repeat (fzero : F) (S nc)) nr.
Proof.
  intros Hz. induction nr as [|nr IH]; [reflexivity|].
  cbn [repeat map]. rewrite IH, (cumsum_zeros nc Hz). reflexivity.
Qed.

End ScaleCheck.

(** ** Binary64 *)

Lemma Prim2SF_zero : Prim2SF 0%float = S754_zero false.
Proof. vm_compute. reflexivity. Qed.

Lemma Prim2SF_neg_zero : Prim2SF neg_zero = S754_zero true.
Proof. vm_compute. reflexivity. Qed.

Lemma positive_double (x : float) :
  (0 <? x)%float = true -> sf_pos (Prim2SF x) = true.
Proof.
  rewrite FloatAxioms.ltb_spec, Prim2SF_zero.
  destruct (Prim2SF x) as [[|]|[|]| |[|] m e]; cbn; congruence.
Qed.

(** Rounding keeps a clear sign bit. *)
Lemma binary_round_aux_nonneg (m e : Z) (l : location) :
  sf_nonneg (binary_round_aux prec emax false m e l) = true.
Proof.
  unfold binary_round_aux.
  destruct (shr_fexp prec emax m e l) as [mrs' e'].
  destruct (shr_fexp prec emax _ e' loc_Exact) as [mrs'' e''].
  destruct (shr_m mrs''); [reflexivity| |reflexivity].
  destruct (Z.leb _ _); reflexivity.
Qed.

Lemma SFdiv_pos_nonneg (x y : spec_float) :
  sf_pos x = true -> sf_pos y = true ->
  sf_nonneg (SFdiv prec emax x y) = true.
Proof.
  destruct x as [[|]|[|]| |[|] mx ex]; try discriminate;
    destruct y as [[|]|[|]| |[|] my ey]; try discriminate;
    intros _ _; try reflexivity.
  cbn [SFdiv xorb].
  destruct (SFdiv_core_binary _ _ _ _ _ _) as [[mz ez] lz].
  apply binary_round_aux_nonneg.
Qed.

Lemma SFsqrt_nonneg (x : spec_float) :
  sf_nonneg x = true -> sf_nonneg (SFsqrt prec emax x) = true.
Proof.
  destruct x as [[|]|[|]| |[|] mx ex]; try discriminate; intros _;
    try reflexivity.
  cbn [SFsqrt].
  destruct (SFsqrt_core_binary _ _ _ _) as [[mz ez] lz].
  apply binary_round_aux_nonneg.
Qed.

(** [normal] accepts every scale that is a NaN or has a clear sign bit. *)
Lemma fneg_nonneg (x : float) :
  sf_nonneg (Prim2SF x) = true -> fneg x = false.
Proof.
  intros Hx. cbn [fneg binary64_scalar].
  unfold is_nan, get_sign, is_zero.
  rewrite !FloatAxioms.eqb_spec.
  destruct (Prim2SF x) as [[|]|[|]| |[|] m e] eqn:E; try discriminate.
  - cbn. rewrite FloatAxioms.ltb_spec, FloatAxioms.div_spec, E.
    vm_compute. reflexivity.
  - cbn. rewrite FloatAxioms.ltb_spec, E. vm_compute. reflexivity.
  - reflexivity.
  - destruct (SFeqb (S754_finite false m e) (S754_finite false m e));
      cbn [negb andb]; [|reflexivity].
    replace (SFeqb (S754_finite false m e) (Prim2SF zero)) with false
      by (vm_compute; reflexivity).
    rewrite FloatAxioms.ltb_spec, E. reflexivity.
Qed.

(** A positive horizon over a positive divisor gives an accepted scale. *)
Lemma positive_scale (T d : float) :
  (0 <? T)%float = true -> (0 <? d)%float = true ->
  fneg (fsqrt (fdiv T d)) = false.
Proof.
  intros HT Hd. apply fneg_nonneg. cbn [fsqrt fdiv binary64_scalar].
  rewrite FloatAxioms.sqrt_spec, FloatAxioms.div_spec.
  apply SFsqrt_nonneg, SFdiv_pos_nonneg; now apply positive_double.
Qed.

(** A zero divided by a positive double keeps its sign. *)
Lemma zero_div_pos (d : float) :
  (0 <? d)%float = true -> (0 / d)%float = 0%float.
Proof.
  intros Hd. apply positive_double in Hd. apply Prim2SF_inj.
  rewrite FloatAxioms.div_spec, Prim2SF_zero.
  destruct (Prim2SF d) as [[|]|[|]| |[|] m e]; try discriminate; reflexivity.
Qed.

Lemma neg_zero_div_pos (d : float) :
  (0 <? d)%float = true -> (neg_zero / d)%float = neg_zero.
Proof.
  intros Hd. apply positive_double in Hd. apply Prim2SF_inj.
  rewrite FloatAxioms.div_spec, Prim2SF_neg_zero.
  destruct (Prim2SF d) as [[|]|[|]| |[|] m e]; try discriminate; reflexivity.
Qed.

(** A finite variate scaled by zero, plus the mean zero, is [+0]. *)
Lemma zero_scaled_variate (z : float) :
  is_finite z = true -> (0 + 0 * z)%float = 0%float.
Proof.
  unfold is_finite, is_nan, is_infinity.
  rewrite !FloatAxioms.eqb_spec, FloatAxioms.abs_spec. intros Hz.
  apply Prim2SF_inj.
  rewrite FloatAxioms.add_spec, FloatAxioms.mul_spec, Prim2SF_zero.
  destruct (Prim2SF z) as [[|]|[|]| |[|] m e]; try reflexivity;
    vm_compute in Hz; discriminate.
Qed.

Lemma usable_steps_inv (N : Z) :
  usable_steps N = true ->
  (0 < N)%Z /\ (0 <? of_int N)%float = true.
Proof.
  unfold usable_steps. rewrite !andb_true_iff. intros ((HN & _) & Hd).
  split; [now apply Z.ltb_lt|exact Hd].
Qed.

(** ** The path generator over the reals *)

Local Open Scope R_scope.

(** C1: for valid arguments the call returns, and in the returned pair
    every path entry from column 1 on is the entry to its left plus the
    increment between them: [W[k, j] = W[k, j-1] + dW[k, j-1]]. *)
Theorem brown_cumulative_sum_identity (gauss : Z -> nat -> R) (T : R)
  (N N_ens : Z) (s : mt_state R) :
  0 < T -> (0 < N)%Z -> (0 < N_ens)%Z ->
  exists W dW s',
    brown (numpy_random gauss) T N N_ens s = (Returned (W, dW), s') /\
    forall k j : nat,
      (k < Z.to_nat N_ens)%nat -> (1 <= j <= Z.to_nat N)%nat ->
      exists w w' d,
        item W k j = Some w /\ item W k (j - 1) = Some w' /\
        item dW k (j - 1) = Some d /\ w = w' + d.
Proof.
  intros _ HN HE. eexists _, _, _. split.
  { apply brown_numpy_run; lia. }
  intros k j Hk Hj. destruct j as [|j]; [lia|].
  replace (S j - 1)%nat with j by lia.
  pose proof (normal_rows_shape 0 (sqrt (T / IZR N)) (Z.to_nat N_ens)
                (Z.to_nat N) s) as (_ & Hl & Hr).
  cbn [data] in Hl, Hr.
  eexists _, _, _. split; [|split; [|split]].
  - apply (path_item 0); [exact Hl|exact Hr|lia|lia].
  - apply (path_item 0); [exact Hl|exact Hr|lia|lia].
  - apply (item_rows 0); [exact Hl|exact Hr|lia|lia].
  - refine (path_row_step (F := R) 0 _ j _).
    rewrite Forall_forall in Hr. rewrite Hr; [lia|].
    apply nth_In. cbn [fzero fsqrt fdiv of_int R_scalar] in Hl. lia.
Qed.

Lemma brown_cumulative_sum_identity_witness :
  0 < 1 /\ (0 < 4)%Z /\ (0 < 2)%Z /\
  exists W dW s',
    brown (numpy_random ramp_gauss) 1 4 2 ramp_state = (Returned (W, dW), s') /\
    forall k j : nat,
      (k < Z.to_nat 2)%nat -> (1 <= j <= Z.to_nat 4)%nat ->
      exists w w' d,
        item W k j = Some w /\ item W k (j - 1) = Some w' /\
        item dW k (j - 1) = Some d /\ w = w' + d.
Proof.
  split; [lra|]. split; [lia|]. split; [lia|].
  apply brown_cumulative_sum_identity; [lra|lia|lia].
Defined.

(** C2: for valid arguments the call returns a pair [(W, dW)] in which
    [W] has shape [(N_ens, N+1)] and [dW] has shape [(N_ens, N)]. *)
Theorem brown_shapes (gauss : Z -> nat -> R) (T : R) (N N_ens : Z)
  (s : mt_state R) :
  0 < T -> (0 < N)%Z -> (0 < N_ens)%Z ->
  exists W dW s',
    brown (numpy_random gauss) T N N_ens s = (Returned (W, dW), s') /\
    has_shape W (Z.to_nat N_ens) (Z.to_nat (N + 1)) /\
    has_shape dW (Z.to_nat N_ens) (Z.to_nat N).
Proof.
  intros _ HN HE. eexists _, _, _. split; [|split].
  - apply brown_numpy_run; lia.
  - pose proof (normal_rows_shape 0 (sqrt (T / IZR N)) (Z.to_nat N_ens)
                  (Z.to_nat N) s) as (_ & Hl & Hr).
    cbn [data] in Hl, Hr.
    replace (Z.to_nat (N + 1)) with (S (Z.to_nat N)) by lia.
    apply path_matrix_shape; assumption.
  - apply normal_rows_shape.
Qed.

Lemma brown_shapes_witness :
  0 < 1 /\ (0 < 500)%Z /\ (0 < 100)%Z /\
  exists W dW s',
    brown (numpy_random ramp_gauss) 1 500 100 ramp_state =
    (Returned (W, dW), s') /\
    has_shape W (Z.to_nat 100) (Z.to_nat (500 + 1)) /\
    has_shape dW (Z.to_nat 100) (Z.to_nat 500).
Proof.
  split; [lra|]. split; [lia|]. split; [lia|].
  apply brown_shapes; [lra|lia|lia].
Defined.

(** C3: for valid arguments the call returns, and the first entry of
    every row of the returned path matrix is zero: [W[k, 0] = 0]. *)
Theorem brown_starts_at_zero (gauss : Z -> nat -> R) (T : R) (N N_ens : Z)
  (s : mt_state R) :
  0 < T -> (0 < N)%Z -> (0 < N_ens)%Z ->
  exists W dW s',
    brown (numpy_random gauss) T N N_ens s = (Returned (W, dW), s') /\
    forall k : nat, (k < Z.to_nat N_ens)%nat -> item W k 0 = Some 0.
Proof.
  intros _ HN HE. eexists _, _, _. split.
  { apply brown_numpy_run; lia. }
  intros k Hk.
  pose proof (normal_rows_shape 0 (sqrt (T / IZR N)) (Z.to_nat N_ens)
                (Z.to_nat N) s) as (_ & Hl & Hr).
  cbn [data] in Hl, Hr.
  rewrite (path_item 0 (Z.to_nat N_ens) (Z.to_nat N));
    [reflexivity|exact Hl|exact Hr|lia|lia].
Qed.

Lemma brown_starts_at_zero_witness :
  0 < 1 /\ (0 < 500)%Z /\ (0 < 100)%Z /\
  exists W dW s',
    brown (numpy_random ramp_gauss) 1 500 100 ramp_state =
    (Returned (W, dW), s') /\
    forall k : nat, (k < Z.to_nat 100)%nat -> item W k 0 = Some 0.
Proof.
  split; [lra|]. split; [lia|]. split; [lia|].
  apply brown_starts_at_zero; [lra|lia|lia].
Defined.

(** C4, as stated, does not hold: in binary64, the calls
    [brown(0.0, 10, 1)] and [brown(1.0, 10, 0)] of the specification's
    error case return a result instead of failing. *)
Lemma brown_validation_counterexample :
  ~ fails (fst (brown (numpy_random (fun _ _ => 0%float))
                      0%float 10 1 binary64_state)) /\
  ~ fails (fst (brown (numpy_random (fun _ _ => 0%float))
                      1%float 10 0 binary64_state)).
Proof. vm_compute. split; exact (fun f => f). Qed.

(** C4, amended, over binary64: [brown] checks nothing itself.  It
    fails before anything is drawn from the random source only where
    Python and NumPy refuse to go on: with [ZeroDivisionError] when
    [N = 0]; with [ValueError] when [N] or [N_ens], both machine
    integers, is negative; and with [ValueError] when the horizon is
    [-0.0], whose square root has its sign bit set.  With a usable step
    count it returns for the horizon [+0.0] and any ensemble size
    [N_ens >= 0], and for a positive horizon and [N_ens = 0]. *)
Theorem brown_argument_errors (gauss : Z -> nat -> float)
  (s : mt_state float) :
  (forall (T : float) (N_ens : Z),
      brown (numpy_random gauss) T 0 N_ens s =
      (Raised ZeroDivisionError, s)) /\
  (forall (T : float) (N N_ens : Z),
      N <> 0%Z -> (N < 0)%Z \/ (N_ens < 0)%Z ->
      machine_int N = true -> machine_int N_ens = true ->
      brown (numpy_random gauss) T N N_ens s = (Raised ValueError, s)) /\
  (forall N N_ens : Z,
      usable_steps N = true -> machine_int N_ens = true ->
      brown (numpy_random gauss) neg_zero N N_ens s =
      (Raised ValueError, s)) /\
  (forall N N_ens : Z,
      usable_steps N = true -> (0 <= N_ens)%Z -> machine_int N_ens = true ->
      ~ fails (fst (brown (numpy_random gauss) 0%float N N_ens s))) /\
  (forall (T : float) (N : Z),
      (0 <? T)%float = true -> usable_steps N = true ->
      ~ fails (fst (brown (numpy_random gauss) T N 0 s))).
Proof.
  split; [|split; [|split; [|split]]].
  - intros T N_ens. apply brown_zero_steps.
  - intros T N N_ens HN Hneg _ _. now apply brown_negative_size.
  - intros N N_ens HN _. apply usable_steps_inv in HN as (HN & Hd).
    apply brown_refused_scale; [lia|].
    cbn [fdiv fsqrt binary64_scalar].
    rewrite (neg_zero_div_pos _ Hd). vm_compute. reflexivity.
  - intros N N_ens HN HE _. apply usable_steps_inv in HN as (HN & Hd).
    rewrite brown_accepted_scale; [exact (fun f => f)|lia|lia|].
    cbn [fdiv fsqrt binary64_scalar].
    rewrite (zero_div_pos _ Hd). vm_compute. reflexivity.
  - intros T N HT HN. apply usable_steps_inv in HN as (HN & Hd).
    rewrite brown_accepted_scale; [exact (fun f => f)|lia|lia|].
    now apply positive_scale.
Qed.

Lemma brown_argument_errors_witness :
  brown (numpy_random (fun _ _ => 0%float)) 1%float 0 1 binary64_state =
  (Raised ZeroDivisionError, binary64_state) /\
  brown (numpy_random (fun _ _ => 0%float)) 1%float (-10) 1 binary64_state =
  (Raised ValueError, binary64_state) /\
  brown (numpy_random (fun _ _ => 0%float)) 1%float 10 (-1) binary64_state =
  (Raised ValueError, binary64_state) /\
  brown (numpy_random (fun _ _ => 0%float)) neg_zero 10 1 binary64_state =
  (Raised ValueError, binary64_state) /\
  ~ fails (fst (brown (numpy_random (fun _ _ => 0%float))
                      0%float 10 1 binary64_state)) /\
  ~ fails (fst (brown (numpy_random (fun _ _ => 0%float))
                      1%float 10 0 binary64_state)).
Proof.
  destruct (brown_argument_errors (fun _ _ => 0%float) binary64_state)
    as (Hzero & Hneg & Hminus & Hflat & Hempty).
  split; [apply Hzero|].
  split; [apply Hneg; [lia|lia|reflexivity|reflexivity]|].
  split; [apply Hneg; [lia|lia|reflexivity|reflexivity]|].
  split; [apply Hminus; reflexivity|].
  split; [apply Hflat; [reflexivity|lia|reflexivity]|].
  apply Hempty; reflexivity.
Defined.

(** The scenario of the specification in exact arithmetic: with
    [normal] stubbed to return the increments [[0.1, -0.2, 0.3, 0.05]],
    the call [brown(1.0, 4, 1)] returns the path
    [[0, 0.1, -0.1, 0.2, 0.25]] (and the increments themselves). *)
Lemma brown_scenario :
  brown (stub_random scenario_increments) 1 4 1 tt =
  (Returned ({| shape := (1%nat, 5%nat);
                data := [[0; 0.1; -0.1; 0.2; 0.25]] |},
             scenario_increments),
   tt).
Proof.
  cbv - [Rplus Rminus Rmult Rdiv Ropp Rinv IZR sqrt].
  repeat (f_equal; try lra).
Qed.

(** The same scenario over binary64: the sums are rounded, and the
    fourth entry comes out one unit in the last place below the double
    nearest to 0.2. *)
Remark binary64_scenario_run :
  fst (brown (stub_random scenario_increments_binary64) 1%float 4 1 tt) =
  Returned ({| shape := (1%nat, 5%nat);
               data := [[0; 0x1.999999999999ap-4; -0x1.999999999999ap-4;
                         0x1.9999999999999p-3; 0.25]%float] |},
            scenario_increments_binary64).
Proof. vm_compute. reflexivity. Qed.

(** C5, as stated, does not hold of the program: in binary64 the fourth
    entry of the path is not the double nearest to [0.2]. *)
Lemma brown_scenario_counterexample :
  brown (stub_random scenario_increments_binary64) 1%float 4 1 tt =
  (Returned ({| shape := (1%nat, 5%nat);
                data := [[0; 0x1.999999999999ap-4; -0x1.999999999999ap-4;
                          0x1.9999999999999p-3; 0.25]%float] |},
             scenario_increments_binary64),
   tt) /\
  (0x1.9999999999999p-3 =? 0x1.999999999999ap-3)%float = false.
Proof. vm_compute. split; reflexivity. Qed.

(** C5, amended: with [normal] stubbed to return the doubles nearest to
    [[0.1, -0.2, 0.3, 0.05]], the call [brown(1.0, 4, 1)] returns the
    path [[0, 0.1, -0.1, 0.2, 0.25]] up to rounding: every entry is the
    double nearest to the stated value, except the fourth, which is the
    double just below the one nearest to [0.2]
    ([0.19999999999999998]).  In exact arithmetic the path is the stated
    one. *)
Theorem brown_scenario_rounded :
  brown (stub_random scenario_increments_binary64) 1%float 4 1 tt =
  (Returned ({| shape := (1%nat, 5%nat);
                data := [[0; 0x1.999999999999ap-4; -0x1.999999999999ap-4;
                          next_down 0x1.999999999999ap-3; 0.25]%float] |},
             scenario_increments_binary64),
   tt) /\
  brown (stub_random scenario_increments) 1 4 1 tt =
  (Returned ({| shape := (1%nat, 5%nat);
                data := [[0; 0.1; -0.1; 0.2; 0.25]] |},
             scenario_increments),
   tt).
Proof.
  split; [vm_compute; reflexivity|exact brown_scenario].
Qed.

(** C6: for valid arguments the increments are what [normal] returns
    for mean [0], standard deviation [sqrt(T / N)] and shape
    [(N_ens, N)]; entry [(k, j)] is the generator's next standard normal
    variate, in row-major order, scaled by [sqrt(T / N)]. *)
Theorem brown_increments_scaled (gauss : Z -> nat -> R) (T : R)
  (N N_ens : Z) (s : mt_state R) :
  0 < T -> (0 < N)%Z -> (0 < N_ens)%Z ->
  exists W dW s',
    brown (numpy_random gauss) T N N_ens s = (Returned (W, dW), s') /\
    normal (numpy_random gauss) 0 (sqrt (T / IZR N)) (N_ens, N) s =
    (Returned dW, s') /\
    forall k j : nat,
      (k < Z.to_nat N_ens)%nat -> (j < Z.to_nat N)%nat ->
      item dW k j =
      Some (sqrt (T / IZR N) *
            variates s (drawn s + k * Z.to_nat N + j)%nat).
Proof.
  intros _ HN HE. eexists _, _, _. split; [|split].
  - apply brown_numpy_run; lia.
  - cbn [numpy_random normal]. unfold np_normal.
    assert (E : fneg (sqrt (T / IZR N)) = false)
      by exact (fneg_sqrt (F := R) _).
    rewrite E.
    destruct (Z.ltb_spec N_ens 0); [lia|].
    destruct (Z.ltb_spec N 0); [lia|]. reflexivity.
  - intros k j Hk Hj.
    pose proof (normal_rows_shape 0 (sqrt (T / IZR N)) (Z.to_nat N_ens)
                  (Z.to_nat N) s) as (_ & Hl & Hr).
    cbn [data] in Hl, Hr.
    rewrite (item_rows 0 (Z.to_nat N_ens) (Z.to_nat N)) by (assumption || lia).
    f_equal.
    refine (eq_trans (nth_normal_rows (F := R) 0 _ _ _ _ s k j Hk Hj) _).
    apply Rplus_0_l.
Qed.

Lemma brown_increments_scaled_witness :
  0 < 1 /\ (0 < 4)%Z /\ (0 < 2)%Z /\
  exists W dW s',
    brown (numpy_random ramp_gauss) 1 4 2 ramp_state =
    (Returned (W, dW), s') /\
    normal (numpy_random ramp_gauss) 0 (sqrt (1 / IZR 4)) (2, 4)%Z
      ramp_state = (Returned dW, s') /\
    forall k j : nat,
      (k < Z.to_nat 2)%nat -> (j < Z.to_nat 4)%nat ->
      item dW k j =
      Some (sqrt (1 / IZR 4) *
            variates ramp_state (drawn ramp_state + k * Z.to_nat 4 + j)%nat).
Proof.
  split; [lra|]. split; [lia|]. split; [lia|].
  apply brown_increments_scaled; [lra|lia|lia].
Defined.

(** C8: a call without the third argument is the call with
    [N_ens = 1]; for a valid horizon and step count it returns [W] of
    shape [(1, N+1)] and [dW] of shape [(1, N)]. *)
Theorem brown_default_ensemble (gauss : Z -> nat -> R) (T : R) (N : Z)
  (s : mt_state R) :
  0 < T -> (0 < N)%Z ->
  call_brown (numpy_random gauss) T N None s =
  brown (numpy_random gauss) T N 1 s /\
  exists W dW s',
    call_brown (numpy_random gauss) T N None s = (Returned (W, dW), s') /\
    has_shape W 1 (Z.to_nat (N + 1)) /\ has_shape dW 1 (Z.to_nat N).
Proof.
  intros _ HN. split; [reflexivity|].
  unfold call_brown. eexists _, _, _. split; [|split].
  - apply brown_numpy_run; lia.
  - pose proof (normal_rows_shape 0 (sqrt (T / IZR N)) (Z.to_nat 1)
                  (Z.to_nat N) s) as (_ & Hl & Hr).
    cbn [data] in Hl, Hr.
    replace (Z.to_nat (N + 1)) with (S (Z.to_nat N)) by lia.
    change 1%nat with (Z.to_nat 1) at 1.
    apply path_matrix_shape; assumption.
  - change 1%nat with (Z.to_nat 1) at 1. apply normal_rows_shape.
Qed.

Lemma brown_default_ensemble_witness :
  0 < 1 /\ (0 < 500)%Z /\
  call_brown (numpy_random ramp_gauss) 1 500 None ramp_state =
  brown (numpy_random ramp_gauss) 1 500 1 ramp_state /\
  exists W dW s',
    call_brown (numpy_random ramp_gauss) 1 500 None ramp_state =
    (Returned (W, dW), s') /\
    has_shape W 1 (Z.to_nat (500 + 1)) /\ has_shape dW 1 (Z.to_nat 500).
Proof.
  split; [lra|]. split; [lia|].
  apply brown_default_ensemble; [lra|lia].
Defined.

(** C9, as stated, does not hold: the horizon [-0.0] equals [0], and
    with it the call fails before anything is drawn. *)
Lemma brown_zero_horizon_counterexample :
  (neg_zero =? 0)%float = true /\
  brown (numpy_random (fun _ _ => 0%float)) neg_zero 10 1 binary64_state =
  (Raised ValueError, binary64_state).
Proof. vm_compute. split; reflexivity. Qed.

(** C9, amended, over binary64: with the horizon [+0.0], a usable step
    count, a positive ensemble size and finite variates, the call
    returns, and [W] and [dW] are the zero matrices of shapes
    [(N_ens, N+1)] and [(N_ens, N)]: every entry is exactly [+0.0].
    With the horizon [-0.0] the scale is [-0.0] and the call fails with
    a [ValueError] before anything is drawn. *)
Theorem brown_zero_horizon_signed (gauss : Z -> nat -> float)
  (N N_ens : Z) (s : mt_state float) :
  usable_steps N = true ->
  (0 < N_ens)%Z -> machine_int N_ens = true ->
  (forall i, is_finite (variates s i) = true) ->
  brown (numpy_random gauss) 0%float N N_ens s =
  (Returned
     ({| shape := (Z.to_nat N_ens, Z.to_nat (N + 1));
         data := repeat (repeat 0%float (Z.to_nat (N + 1)))
                        (Z.to_nat N_ens) |},
      {| shape := (Z.to_nat N_ens, Z.to_nat N);
         data := repeat (repeat 0%float (Z.to_nat N)) (Z.to_nat N_ens) |}),
   {| variates := variates s;
      drawn := (drawn s + Z.to_nat N_ens * Z.to_nat N)%nat |}) /\
  brown (numpy_random gauss) neg_zero N N_ens s = (Raised ValueError, s).
Proof.
  intros HN HE _ Hfin. apply usable_steps_inv in HN as (HN & Hd).
  assert (Hscale : fsqrt (fdiv 0%float (of_int N)) = 0%float).
  { cbn [fdiv fsqrt binary64_scalar]. rewrite (zero_div_pos _ Hd).
    vm_compute. reflexivity. }
  split.
  - rewrite brown_accepted_scale;
      [|lia|lia|rewrite Hscale; vm_compute; reflexivity].
    rewrite Hscale.
    replace (Z.to_nat (N + 1)) with (S (Z.to_nat N)) by lia.
    rewrite (zero_rows (F := float) 0%float);
      [|intros i; apply zero_scaled_variate, Hfin].
    rewrite (zero_paths (F := float)) by (vm_compute; reflexivity).
    reflexivity.
  - apply brown_refused_scale; [lia|].
    cbn [fdiv fsqrt binary64_scalar].
    rewrite (neg_zero_div_pos _ Hd). vm_compute. reflexivity.
Qed.

Lemma brown_zero_horizon_signed_witness :
  usable_steps 4 = true /\ (0 < 2)%Z /\ machine_int 2 = true /\
  (forall i, is_finite (variates alternating_state i) = true) /\
  brown (numpy_random (fun _ _ => 0%float)) 0%float 4 2 alternating_state =
  (Returned
     ({| shape := (Z.to_nat 2, Z.to_nat (4 + 1));
         data := repeat (repeat 0%float (Z.to_nat (4 + 1))) (Z.to_nat 2) |},
      {| shape := (Z.to_nat 2, Z.to_nat 4);
         data := repeat (repeat 0%float (Z.to_nat 4)) (Z.to_nat 2) |}),
   {| variates := variates alternating_state;
      drawn := (drawn alternating_state + Z.to_nat 2 * Z.to_nat 4)%nat |}) /\
  brown (numpy_random (fun _ _ => 0%float)) neg_zero 4 2 alternating_state =
  (Raised ValueError, alternating_state).
Proof.
  assert (Hfin : forall i, is_finite (variates alternating_state i) = true).
  { intros i. cbn [alternating_state variates].
    destruct (Nat.even i); reflexivity. }
  split; [reflexivity|]. split; [lia|]. split; [reflexivity|].
  split; [exact Hfin|].
  apply brown_zero_horizon_signed; [reflexivity|lia|reflexivity|exact Hfin].
Defined.

(** C10: with [N_ens = 0], a positive horizon and a positive step count
    the call returns two arrays without rows, [W] of shape [(0, N+1)]
    and [dW] of shape [(0, N)], and draws nothing. *)
Theorem brown_empty_ensemble (gauss : Z -> nat -> R) (T : R) (N : Z)
  (s : mt_state R) :
  0 < T -> (0 < N)%Z ->
  brown (numpy_random gauss) T N 0 s =
  (Returned ({| shape := (0%nat, Z.to_nat (N + 1)); data := [] |},
             {| shape := (0%nat, Z.to_nat N); data := [] |}),
   s).
Proof.
  intros _ HN. rewrite brown_numpy_run by lia.
  replace (Z.to_nat (N + 1)) with (S (Z.to_nat N)) by lia.
  destruct s as [v p]. cbn [Z.to_nat normal_rows seq map variates drawn].
  now rewrite Nat.mul_0_l, Nat.add_0_r.
Qed.

Lemma brown_empty_ensemble_witness :
  0 < 1 /\ (0 < 10)%Z /\
  brown (numpy_random ramp_gauss) 1 10 0 ramp_state =
  (Returned ({| shape := (0%nat, Z.to_nat (10 + 1)); data := [] |},
             {| shape := (0%nat, Z.to_nat 10); data := [] |}),
   ramp_state).
Proof.
  split; [lra|]. split; [lia|].
  apply brown_empty_ensemble; [lra|lia].
Defined.

(** A zero horizon over binary64: the products of the zero scale with
    negative variates are negative zeros, which the addition of the mean
    turns into [+0]; all entries are zero and eight variates are
    consumed. *)
Remark binary64_zero_horizon_run :
  brown (numpy_random (fun _ _ => 0%float)) 0%float 4 2 binary64_state =
  (Returned ({| shape := (2%nat, 5%nat);
                data := [[0; 0; 0; 0; 0]; [0; 0; 0; 0; 0]]%float |},
             {| shape := (2%nat, 4%nat);
                data := [[0; 0; 0; 0]; [0; 0; 0; 0]]%float |}),
   {| variates := variates binary64_state; drawn := 8 |}).
Proof. vm_compute. reflexivity. Qed.

(** * Further properties of the path generator *)

(** ** Any random source *)

Section AnySource.

Context {F : Type} `{Scalar F}.

Variable rs : RandomSource F.

(** A call that returns went through every line of [brown]. *)
Lemma brown_returned_inv (T : F) (N N_ens : Z) (s s' : rng_state rs)
  (W dW : ndarray F) :
  brown rs T N N_ens s = (Returned (W, dW), s') ->
  N <> 0%Z /\
  normal rs fzero (fsqrt (fdiv T (of_int N))) (N_ens, N) s =
  (Returned dW, s') /\
  (0 <= N_ens)%Z /\ (-1 <= N)%Z /\
  setitem_cols_from_1
    {| shape := (Z.to_nat N_ens, Z.to_nat (N + 1));
       data := repeat (repeat fzero (Z.to_nat (N + 1))) (Z.to_nat N_ens) |}
    (np_cumsum_axis1 dW) = Returned W.
Proof.
  unfold brown, bind, lift, ret, py_truediv.
  destruct (Z.eqb_spec N 0) as [|HN]; [discriminate|].
  destruct (normal rs _ _ _ s) as [[a|e] s1]; [|discriminate].
  unfold np_zeros.
  destruct (Z.ltb_spec N_ens 0); [discriminate|].
  destruct (Z.ltb_spec (N + 1) 0); [discriminate|]. cbn [orb].
  destruct (setitem_cols_from_1 _ _) as [W'|e] eqn:E; [|discriminate].
  intros Heq. injection Heq as -> -> ->.
  repeat split; try assumption; lia.
Qed.

(** The rows of [W] after the slice assignment, whatever was assigned. *)
Lemma setitem_zeros_any (V W : ndarray F) (nr c : nat) :
  setitem_cols_from_1
    {| shape := (nr, c); data := repeat (repeat fzero c) nr |} V =
  Returned W ->
  shape W = (nr, c) /\
  exists tails : nat -> list F,
    (forall k, length (tails k) = (c - 1)%nat) /\
    data W = map (fun k => firstn 1 (repeat fzero c) ++ tails k) (seq 0 nr).
Proof.
  unfold setitem_cols_from_1. cbn [shape data].
  destruct (broadcastable _ _); [|discriminate].
  intros Heq. injection Heq as <-. cbn [shape data]. split; [reflexivity|].
  eexists (fun k => map _ (seq 0 (c - 1))). split.
  - intros k. now rewrite length_map, length_seq.
  - apply map_ext_in. intros k Hk. apply in_seq in Hk.
    rewrite nth_repeat_lt by lia. reflexivity.
Qed.

Lemma firstn_1_repeat_length (c : nat) (tail : list F) :
  length tail = (c - 1)%nat ->
  length (firstn 1 (repeat fzero c) ++ tail) = c.
Proof.
  intros Ht. rewrite length_app, Ht. destruct c as [|c]; cbn; lia.
Qed.

(** X1: whatever the random source hands back, a path matrix that
    [brown] returns has [N_ens] rows of [N + 1] entries each. *)
Theorem brown_path_shape_any_source (T : F) (N N_ens : Z)
  (s s' : rng_state rs) (W dW : ndarray F) :
  brown rs T N N_ens s = (Returned (W, dW), s') ->
  has_shape W (Z.to_nat N_ens) (Z.to_nat (N + 1)).
Proof.
  intros Hrun.
  destruct (brown_returned_inv _ _ _ _ _ _ _ Hrun) as (_ & _ & _ & _ & Hset).
  destruct (setitem_zeros_any _ _ _ _ Hset) as (Hs & tails & Hlen & Hd).
  split; [exact Hs|]. rewrite Hd. split.
  - now rewrite length_map, length_seq.
  - rewrite Forall_map, Forall_forall. intros k _.
    now apply firstn_1_repeat_length.
Qed.

(** X2: whatever the random source hands back, every row of a returned
    path matrix starts with zero. *)
Theorem brown_origin_any_source (T : F) (N N_ens : Z)
  (s s' : rng_state rs) (W dW : ndarray F) :
  brown rs T N N_ens s = (Returned (W, dW), s') ->
  forall k : nat, (k < Z.to_nat N_ens)%nat -> (0 < N)%Z ->
    item W k 0 = Some fzero.
Proof.
  intros Hrun k Hk HN.
  destruct (brown_returned_inv _ _ _ _ _ _ _ Hrun) as (_ & _ & _ & _ & Hset).
  destruct (setitem_zeros_any _ _ _ _ Hset) as (Hs & tails & Hlen & Hd).
  unfold item. rewrite Hs, Hd. cbn [fst snd].
  destruct (Nat.ltb_spec k (Z.to_nat N_ens)); [|lia].
  destruct (Nat.ltb_spec 0 (Z.to_nat (N + 1))); [|lia]. cbn [andb].
  rewrite (nth_error_nth' _ []) by (rewrite length_map, length_seq; lia).
  rewrite nth_map_seq by lia.
  destruct (Z.to_nat (N + 1)) as [|c] eqn:Ec; [lia|]. reflexivity.
Qed.

(** X3: [brown] does not check what [normal] returns.  An array that
    cannot be broadcast to [N_ens] rows of [N] columns stops the call at
    the slice assignment, with a [ValueError], after the random source
    has been used. *)
Theorem brown_misshaped_increments (T : F) (N N_ens : Z)
  (s s' : rng_state rs) (a : ndarray F) :
  (0 < N)%Z -> (0 <= N_ens)%Z ->
  normal rs fzero (fsqrt (fdiv T (of_int N))) (N_ens, N) s =
  (Returned a, s') ->
  broadcastable (shape a) (Z.to_nat N_ens, Z.to_nat N) = false ->
  brown rs T N N_ens s = (Raised ValueError, s').
Proof.
  intros HN HE Hdraw Hbad. unfold brown, bind, lift, ret, py_truediv.
  destruct (Z.eqb_spec N 0); [lia|]. rewrite Hdraw. unfold np_zeros.
  destruct (Z.ltb_spec N_ens 0); [lia|].
  destruct (Z.ltb_spec (N + 1) 0); [lia|]. cbn [orb].
  unfold setitem_cols_from_1. cbn [shape data np_cumsum_axis1].
  replace (Z.to_nat (N + 1) - 1)%nat with (Z.to_nat N) by lia.
  now rewrite Hbad.
Qed.

End AnySource.

Lemma brown_path_shape_any_source_witness :
  exists W dW s',
    brown (numpy_random ramp_gauss) 1%R 4 2 ramp_state =
    (Returned (W, dW), s') /\
    has_shape W (Z.to_nat 2) (Z.to_nat (4 + 1)).
Proof.
  pose proof (brown_numpy_run ramp_gauss 1%R 4 2 ramp_state
                ltac:(lia) ltac:(lia)) as Hrun.
  eexists _, _, _. split; [exact Hrun|].
  exact (brown_path_shape_any_source _ _ _ _ _ _ _ _ Hrun).
Defined.

Lemma brown_origin_any_source_witness :
  exists W dW s',
    brown (numpy_random ramp_gauss) 1%R 4 2 ramp_state =
    (Returned (W, dW), s') /\
    (1 < Z.to_nat 2)%nat /\ (0 < 4)%Z /\ item W 1 0 = Some 0%R.
Proof.
  pose proof (brown_numpy_run ramp_gauss 1%R 4 2 ramp_state
                ltac:(lia) ltac:(lia)) as Hrun.
  eexists _, _, _. split; [exact Hrun|].
  split; [lia|]. split; [lia|].
  apply (brown_origin_any_source _ _ _ _ _ _ _ _ Hrun); lia.
Defined.

Lemma brown_misshaped_increments_witness :
  (0 < 4)%Z /\ (0 <= 1)%Z /\
  normal (stub_random misshaped_increments) 0%R (sqrt (1 / IZR 4)) (1, 4)%Z tt =
  (Returned misshaped_increments, tt) /\
  broadcastable (shape misshaped_increments) (Z.to_nat 1, Z.to_nat 4) = false /\
  brown (stub_random misshaped_increments) 1%R 4 1 tt = (Raised ValueError, tt).
Proof.
  split; [lia|]. split; [lia|]. split; [reflexivity|]. split; [reflexivity|].
  apply (brown_misshaped_increments (stub_random misshaped_increments)
           1%R 4 1 tt tt misshaped_increments); [lia|lia|reflexivity|reflexivity].
Defined.

(** ** A stub that returns a single row *)

Lemma map_const_seq {A : Type} (a : A) (g : nat -> A) (n : nat) :
  (forall k, (k < n)%nat -> g k = a) -> map g (seq 0 n) = repeat a n.
Proof.
  intros Hg. apply (nth_ext _ _ a a).
  - now rewrite length_map, length_seq, repeat_length.
  - intros k Hk. rewrite length_map, length_seq in Hk.
    rewrite nth_map_seq, nth_repeat_lt by lia. now apply Hg.
Qed.

(** X4: a stubbed [normal] that returns one row of [N] increments,
    however many rows were asked for, makes [brown] broadcast: every one
    of the [N_ens] paths is the prefix sums of that row, and the
    increments come back with their single row. *)
Theorem brown_single_row_broadcast {F : Type} `{Scalar F} (T : F)
  (row : list F) (N_ens : Z) :
  row <> [] -> (0 <= N_ens)%Z ->
  brown (stub_random {| shape := (1%nat, length row); data := [row] |})
        T (Z.of_nat (length row)) N_ens tt =
  (Returned ({| shape := (Z.to_nat N_ens, S (length row));
                data := repeat (fzero :: cumsum row) (Z.to_nat N_ens) |},
             {| shape := (1%nat, length row); data := [row] |}),
   tt).
Proof.
  intros Hrow HE. unfold brown, bind, lift, ret, py_truediv.
  assert (Hlen : (0 < length row)%nat) by (destruct row; [congruence|cbn; lia]).
  destruct (Z.eqb_spec (Z.of_nat (length row)) 0); [lia|].
  cbn [stub_random normal]. unfold ret, np_zeros.
  destruct (Z.ltb_spec N_ens 0); [lia|].
  destruct (Z.ltb_spec (Z.of_nat (length row) + 1) 0); [lia|]. cbn [orb].
  replace (Z.to_nat (Z.of_nat (length row) + 1)) with (S (length row)) by lia.
  unfold setitem_cols_from_1. cbn [shape data np_cumsum_axis1 map].
  replace (S (length row) - 1)%nat with (length row) by lia.
  unfold broadcastable. cbn [fst snd].
  rewrite !Nat.eqb_refl, orb_true_r. cbn [orb andb].
  do 4 f_equal. apply map_const_seq. intros k Hk.
  rewrite nth_repeat_lt by lia. cbn [repeat firstn app]. f_equal.
  unfold bidx at 2. cbn [Nat.eqb nth].
  transitivity (map (fun j => nth j (cumsum row) fzero) (seq 0 (length row))).
  - apply map_ext_in. intros j Hj. apply in_seq in Hj.
    now rewrite bidx_lt by lia.
  - rewrite <- (cumsum_length row) at 1.
    rewrite (map_nth_seq (fun x => x)). apply map_id.
Qed.

Lemma brown_single_row_broadcast_witness :
  [0.5; 0.25]%R <> [] /\ (0 <= 3)%Z /\
  brown (stub_random {| shape := (1%nat, length [0.5; 0.25]%R);
                        data := [[0.5; 0.25]%R] |})
        1%R (Z.of_nat (length [0.5; 0.25]%R)) 3 tt =
  (Returned ({| shape := (Z.to_nat 3, S (length [0.5; 0.25]%R));
                data := repeat (fzero :: cumsum [0.5; 0.25]%R) (Z.to_nat 3) |},
             {| shape := (1%nat, length [0.5; 0.25]%R);
                data := [[0.5; 0.25]%R] |}),
   tt).
Proof.
  split; [discriminate|]. split; [lia|].
  apply brown_single_row_broadcast; [discriminate|lia].
Defined.

(** ** Paths as sums of increments *)

Lemma firstn_succ_nth {A : Type} (d : A) (l : list A) :
  forall j, (j < length l)%nat -> firstn (S j) l = firstn j l ++ [nth j l d].
Proof.
  induction l as [|x l IH]; intros j Hj; simpl in Hj; [lia|].
  destruct j as [|j]; [reflexivity|].
  cbn [firstn nth app]. f_equal. apply IH. lia.
Qed.

Section Sums.

Context {F : Type} `{ExactScalar F}.

Lemma fsum_firstn_succ (d : F) (l : list F) (j : nat) :
  (j < length l)%nat ->
  fsum (firstn (S j) l) = fadd (fsum (firstn j l)) (nth j l d).
Proof.
  intros Hj. rewrite (firstn_succ_nth d) by exact Hj.
  unfold fsum. now rewrite fold_left_app.
Qed.

(** Entry [j] of a path row is the sum of the first [j] increments. *)
Lemma path_row_prefix_sum (d : F) (row : list F) (j : nat) :
  (j <= length row)%nat ->
  nth j (fzero :: cumsum row) d = fsum (firstn j row).
Proof.
  induction j as [|j IH]; intros Hj; [reflexivity|].
  rewrite path_row_step by lia. rewrite IH by lia.
  symmetry. apply fsum_firstn_succ. lia.
Qed.

(** With increments of the shape that was asked for, the slice
    assignment puts a zero in front of the prefix sums of each row. *)
Lemma brown_well_shaped_paths (rs : RandomSource F) (T : F) (N N_ens : Z)
  (s s' : rng_state rs) (W dW : ndarray F) :
  (0 < N)%Z ->
  brown rs T N N_ens s = (Returned (W, dW), s') ->
  has_shape dW (Z.to_nat N_ens) (Z.to_nat N) ->
  W = {| shape := (Z.to_nat N_ens, S (Z.to_nat N));
         data := map (fun row => fzero :: cumsum row) (data dW) |}.
Proof.
  intros HN Hrun Hshape.
  destruct (brown_returned_inv _ _ _ _ _ _ _ _ Hrun) as (_ & _ & _ & _ & Hset).
  replace (Z.to_nat (N + 1)) with (S (Z.to_nat N)) in Hset by lia.
  rewrite (setitem_zeros (np_cumsum_axis1 dW) (Z.to_nat N_ens) (Z.to_nat N))
    in Hset by now apply has_shape_cumsum.
  injection Hset as <-. cbn [np_cumsum_axis1 data]. now rewrite map_map.
Qed.

End Sums.

(** X5: for any random source that returns increments of the shape it
    was asked for, entry [j] of path [k] is the sum of the first [j]
    increments of row [k]; in particular the last entry is the sum of
    the whole row. *)
Theorem brown_prefix_sums (rs : RandomSource R) (T : R) (N N_ens : Z)
  (s s' : rng_state rs) (W dW : ndarray R) :
  (0 < N)%Z ->
  brown rs T N N_ens s = (Returned (W, dW), s') ->
  has_shape dW (Z.to_nat N_ens) (Z.to_nat N) ->
  forall k j : nat,
    (k < Z.to_nat N_ens)%nat -> (j <= Z.to_nat N)%nat ->
    item W k j = Some (fold_left Rplus (firstn j (nth k (data dW) [])) 0).
Proof.
  intros HN Hrun Hshape k j Hk Hj.
  rewrite (brown_well_shaped_paths _ _ _ _ _ _ _ _ HN Hrun Hshape).
  destruct Hshape as (_ & Hl & Hr).
  rewrite (path_item 0 (Z.to_nat N_ens) (Z.to_nat N)) by (assumption || lia).
  f_equal. refine (path_row_prefix_sum (F := R) 0 _ j _).
  rewrite Forall_forall in Hr. rewrite Hr; [lia|]. apply nth_In. lia.
Qed.

Lemma brown_prefix_sums_witness :
  exists W dW s',
    (0 < 4)%Z /\
    brown (numpy_random ramp_gauss) 1 4 2 ramp_state =
    (Returned (W, dW), s') /\
    has_shape dW (Z.to_nat 2) (Z.to_nat 4) /\
    forall k j : nat,
      (k < Z.to_nat 2)%nat -> (j <= Z.to_nat 4)%nat ->
      item W k j = Some (fold_left Rplus (firstn j (nth k (data dW) [])) 0).
Proof.
  pose proof (brown_numpy_run ramp_gauss 1 4 2 ramp_state
                ltac:(lia) ltac:(lia)) as Hrun.
  cbv zeta in Hrun.
  eexists _, _, _. split; [lia|]. split; [exact Hrun|].
  split; [apply normal_rows_shape|].
  eapply brown_prefix_sums; [|exact Hrun|apply normal_rows_shape]. lia.
Defined.

(** ** NumPy's generator: consumption and scaling *)

Lemma numpy_increment (T : R) (N : Z) (nr : nat) (s : mt_state R)
  (k j : nat) :
  (k < nr)%nat -> (j < Z.to_nat N)%nat ->
  nth j (nth k (normal_rows 0 (sqrt (T / IZR N)) nr (Z.to_nat N) s) []) 0 =
  sqrt (T / IZR N) * variates s (drawn s + k * Z.to_nat N + j)%nat.
Proof.
  intros Hk Hj.
  refine (eq_trans (nth_normal_rows (F := R) 0 _ _ _ _ s k j Hk Hj) _).
  apply Rplus_0_l.
Qed.

(** X6: a call uses [N_ens * N] variates of the generator and leaves
    the rest of the stream alone, so that a second call continues where
    the first one stopped: its increment [(k, j)] is the variate
    [N_ens * N] places after the one the first call used there. *)
Theorem brown_consecutive_calls (gauss : Z -> nat -> R) (T : R)
  (N N_ens : Z) (s : mt_state R) :
  0 < T -> (0 < N)%Z -> (0 <= N_ens)%Z ->
  exists W1 dW1 s1 W2 dW2 s2,
    brown (numpy_random gauss) T N N_ens s = (Returned (W1, dW1), s1) /\
    brown (numpy_random gauss) T N N_ens s1 = (Returned (W2, dW2), s2) /\
    variates s2 = variates s /\
    drawn s1 = (drawn s + Z.to_nat N_ens * Z.to_nat N)%nat /\
    drawn s2 = (drawn s + 2 * (Z.to_nat N_ens * Z.to_nat N))%nat /\
    forall k j : nat,
      (k < Z.to_nat N_ens)%nat -> (j < Z.to_nat N)%nat ->
      item dW1 k j =
      Some (sqrt (T / IZR N) *
            variates s (drawn s + k * Z.to_nat N + j)%nat) /\
      item dW2 k j =
      Some (sqrt (T / IZR N) *
            variates s (drawn s + Z.to_nat N_ens * Z.to_nat N
                        + k * Z.to_nat N + j)%nat).
Proof.
  intros _ HN HE. eexists _, _, _, _, _, _.
  split; [apply brown_numpy_run; lia|].
  split; [apply brown_numpy_run; lia|].
  cbn [variates drawn].
  split; [reflexivity|]. split; [reflexivity|]. split; [lia|].
  intros k j Hk Hj. split.
  - rewrite (item_rows 0 (Z.to_nat N_ens) (Z.to_nat N));
      try (apply normal_rows_shape || lia).
    f_equal. now apply numpy_increment.
  - rewrite (item_rows 0 (Z.to_nat N_ens) (Z.to_nat N));
      try (apply normal_rows_shape || lia).
    f_equal. now apply numpy_increment.
Qed.

Lemma brown_consecutive_calls_witness :
  0 < 1 /\ (0 < 4)%Z /\ (0 <= 2)%Z /\
  exists W1 dW1 s1 W2 dW2 s2,
    brown (numpy_random ramp_gauss) 1 4 2 ramp_state =
    (Returned (W1, dW1), s1) /\
    brown (numpy_random ramp_gauss) 1 4 2 s1 = (Returned (W2, dW2), s2) /\
    variates s2 = variates ramp_state /\
    drawn s1 = (drawn ramp_state + Z.to_nat 2 * Z.to_nat 4)%nat /\
    drawn s2 = (drawn ramp_state + 2 * (Z.to_nat 2 * Z.to_nat 4))%nat /\
    forall k j : nat,
      (k < Z.to_nat 2)%nat -> (j < Z.to_nat 4)%nat ->
      item dW1 k j =
      Some (sqrt (1 / IZR 4) *
            variates ramp_state (drawn ramp_state + k * Z.to_nat 4 + j)%nat) /\
      item dW2 k j =
      Some (sqrt (1 / IZR 4) *
            variates ramp_state (drawn ramp_state + Z.to_nat 2 * Z.to_nat 4
                                 + k * Z.to_nat 4 + j)%nat).
Proof.
  split; [lra|]. split; [lia|]. split; [lia|].
  apply brown_consecutive_calls; [lra|lia|lia].
Defined.

(** C7: seeding the generator with an accepted seed and calling
    [brown] with valid arguments, twice over, returns the same pair
    [(W, dW)] both times, although the first call moves the generator
    on by [N_ens * N] variates.  The pair is fixed by the seed and the
    arguments alone: increment [(k, j)] is [sqrt(T / N)] times variate
    [k * N + j] of the seed's stream, and entry [j] of path [k] is the
    sum of the first [j] increments of row [k]. *)
Theorem seeded_brown_reproducible (gauss : Z -> nat -> R) (n : Z) (T : R)
  (N N_ens : Z) (s : mt_state R) :
  (0 <= n < 2 ^ 32)%Z -> 0 < T -> (0 < N)%Z -> (0 < N_ens)%Z ->
  exists W dW,
    seeded_twice (numpy_random gauss) n T N N_ens s =
    (Returned (W, dW), Returned (W, dW)) /\
    snd (seeded_brown (numpy_random gauss) n T N N_ens s) =
    {| variates := gauss n;
       drawn := (Z.to_nat N_ens * Z.to_nat N)%nat |} /\
    (forall k j : nat,
        (k < Z.to_nat N_ens)%nat -> (j < Z.to_nat N)%nat ->
        item dW k j =
        Some (sqrt (T / IZR N) * gauss n (k * Z.to_nat N + j)%nat)) /\
    (forall k j : nat,
        (k < Z.to_nat N_ens)%nat -> (j <= Z.to_nat N)%nat ->
        item W k j =
        Some (fold_left Rplus (firstn j (nth k (data dW) [])) 0)).
Proof.
  intros _ _ HN HE.
  pose proof (normal_rows_shape 0 (sqrt (T / IZR N)) (Z.to_nat N_ens)
                (Z.to_nat N) (np_seed gauss n s)) as (_ & Hl & Hr).
  cbn [data] in Hl, Hr.
  eexists _, _. split; [|split; [|split]].
  - unfold seeded_twice, seeded_brown. cbn [numpy_random seed].
    rewrite (brown_numpy_run gauss T N N_ens (np_seed gauss n s)) by lia.
    cbv zeta.
    rewrite (brown_numpy_run gauss T N N_ens (np_seed gauss n _)) by lia.
    reflexivity.
  - unfold seeded_brown. cbn [numpy_random seed].
    rewrite (brown_numpy_run gauss T N N_ens (np_seed gauss n s)) by lia.
    reflexivity.
  - intros k j Hk Hj.
    rewrite (item_rows 0 (Z.to_nat N_ens) (Z.to_nat N)) by (assumption || lia).
    f_equal. rewrite numpy_increment by assumption. reflexivity.
  - intros k j Hk Hj.
    rewrite (path_item 0 (Z.to_nat N_ens) (Z.to_nat N)) by (assumption || lia).
    f_equal. refine (path_row_prefix_sum (F := R) 0 _ j _).
    rewrite Forall_forall in Hr. rewrite Hr; [lia|]. apply nth_In. lia.
Qed.

Lemma seeded_brown_reproducible_witness :
  (0 <= 0 < 2 ^ 32)%Z /\ 0 < 1 /\ (0 < 500)%Z /\ (0 < 100)%Z /\
  exists W dW,
    seeded_twice (numpy_random ramp_gauss) 0 1 500 100 ramp_state =
    (Returned (W, dW), Returned (W, dW)) /\
    snd (seeded_brown (numpy_random ramp_gauss) 0 1 500 100 ramp_state) =
    {| variates := ramp_gauss 0;
       drawn := (Z.to_nat 100 * Z.to_nat 500)%nat |} /\
    (forall k j : nat,
        (k < Z.to_nat 100)%nat -> (j < Z.to_nat 500)%nat ->
        item dW k j =
        Some (sqrt (1 / IZR 500) * ramp_gauss 0 (k * Z.to_nat 500 + j)%nat)) /\
    (forall k j : nat,
        (k < Z.to_nat 100)%nat -> (j <= Z.to_nat 500)%nat ->
        item W k j =
        Some (fold_left Rplus (firstn j (nth k (data dW) [])) 0)).
Proof.
  split; [lia|]. split; [lra|]. split; [lia|]. split; [lia|].
  apply seeded_brown_reproducible; [lia|lra|lia|lia].
Defined.

(** Prefix sums commute with scaling the increments. *)
Lemma scaled_path_row (c : R) (row row1 : list R) :
  length row = length row1 ->
  (forall i, (i < length row)%nat -> nth i row 0 = c * nth i row1 0) ->
  forall j, (j <= length row)%nat ->
    nth j (fzero :: cumsum row) 0 = c * nth j (fzero :: cumsum row1) 0.
Proof.
  intros Hlen Hinc j. induction j as [|j IH]; intros Hj.
  - cbn. ring.
  - rewrite (path_row_step (F := R) 0 row j) by lia.
    rewrite (path_row_step (F := R) 0 row1 j) by lia.
    rewrite IH by lia. rewrite Hinc by lia. cbn [fadd R_scalar]. ring.
Qed.

(** X7: the horizon only scales the result.  From the same generator
    state, the increments and the paths for a horizon [T > 0] are
    [sqrt T] times those for the horizon [1]. *)
Theorem brown_horizon_scaling (gauss : Z -> nat -> R) (T : R)
  (N N_ens : Z) (s : mt_state R) :
  0 < T -> (0 < N)%Z -> (0 <= N_ens)%Z ->
  exists W dW W1 dW1 s',
    brown (numpy_random gauss) T N N_ens s = (Returned (W, dW), s') /\
    brown (numpy_random gauss) 1 N N_ens s = (Returned (W1, dW1), s') /\
    (forall k j : nat,
        (k < Z.to_nat N_ens)%nat -> (j < Z.to_nat N)%nat ->
        exists d1, item dW1 k j = Some d1 /\
                   item dW k j = Some (sqrt T * d1)) /\
    (forall k j : nat,
        (k < Z.to_nat N_ens)%nat -> (j <= Z.to_nat N)%nat ->
        exists w1, item W1 k j = Some w1 /\
                   item W k j = Some (sqrt T * w1)).
Proof.
  intros HT HN HE.
  assert (Hscale : sqrt (T / IZR N) = sqrt T * sqrt (1 / IZR N)).
  { unfold Rdiv. rewrite Rmult_1_l. apply sqrt_mult_alt. lra. }
  assert (Hinc : forall k j : nat,
             (k < Z.to_nat N_ens)%nat -> (j < Z.to_nat N)%nat ->
             nth j (nth k (normal_rows 0 (sqrt (T / IZR N))
                             (Z.to_nat N_ens) (Z.to_nat N) s) []) 0 =
             sqrt T *
             nth j (nth k (normal_rows 0 (sqrt (1 / IZR N))
                             (Z.to_nat N_ens) (Z.to_nat N) s) []) 0).
  { intros k j Hk Hj. rewrite !numpy_increment by assumption.
    rewrite Hscale. ring. }
  pose proof (normal_rows_shape 0 (sqrt (T / IZR N)) (Z.to_nat N_ens)
                (Z.to_nat N) s) as (_ & Hl & Hr).
  pose proof (normal_rows_shape 0 (sqrt (1 / IZR N)) (Z.to_nat N_ens)
                (Z.to_nat N) s) as (_ & Hl1 & Hr1).
  cbn [data] in Hl, Hr, Hl1, Hr1.
  eexists _, _, _, _, _.
  split; [apply brown_numpy_run; lia|].
  split; [apply brown_numpy_run; lia|]. split.
  - intros k j Hk Hj. eexists. split.
    + apply (item_rows 0); [exact Hl1|exact Hr1|lia|lia].
    + rewrite (item_rows 0 (Z.to_nat N_ens) (Z.to_nat N))
        by (assumption || lia).
      f_equal. now apply Hinc.
  - intros k j Hk Hj. eexists. split.
    + apply (path_item 0); [exact Hl1|exact Hr1|lia|lia].
    + rewrite (path_item 0 (Z.to_nat N_ens) (Z.to_nat N))
        by (assumption || lia).
      f_equal.
      assert (Hrow : forall l : list (list R),
                 Forall (fun row => length row = Z.to_nat N) l ->
                 length l = Z.to_nat N_ens ->
                 length (nth k l []) = Z.to_nat N).
      { intros l Hf Hlen. rewrite Forall_forall in Hf.
        apply Hf, nth_In. lia. }
      apply scaled_path_row.
      * now rewrite !Hrow.
      * intros i Hi. rewrite Hrow in Hi by assumption. now apply Hinc.
      * now rewrite Hrow.
Qed.

Lemma brown_horizon_scaling_witness :
  0 < 9 /\ (0 < 4)%Z /\ (0 <= 2)%Z /\
  exists W dW W1 dW1 s',
    brown (numpy_random ramp_gauss) 9 4 2 ramp_state =
    (Returned (W, dW), s') /\
    brown (numpy_random ramp_gauss) 1 4 2 ramp_state =
    (Returned (W1, dW1), s') /\
    (forall k j : nat,
        (k < Z.to_nat 2)%nat -> (j < Z.to_nat 4)%nat ->
        exists d1, item dW1 k j = Some d1 /\
                   item dW k j = Some (sqrt 9 * d1)) /\
    (forall k j : nat,
        (k < Z.to_nat 2)%nat -> (j <= Z.to_nat 4)%nat ->
        exists w1, item W1 k j = Some w1 /\
                   item W k j = Some (sqrt 9 * w1)).
Proof.
  split; [lra|]. split; [lia|]. split; [lia|].
  apply brown_horizon_scaling; [lra|lia|lia].
Defined.

(** * The script *)

Section ScriptFacts.

Context {F : Type} `{GridScalar F}.

Variable rs : RandomSource F.

(** The plotting loop over rows that exist and are as long as the time
    grid: one curve per row, in order, and nothing else changes. *)
Lemma plot_loop (t : list F) (W : ndarray F) (nr c : nat) (ks : list nat)
  (s : rng_state rs) :
  has_shape W nr c -> length t = c -> Forall (fun k => (k < nr)%nat) ks ->
  forall tr : list (event F),
    for_each ks
      (fun k => row <~ or_index_error (getrow W k) ;; plt_plot (rs := rs) t row)
      (s, tr) =
    (inl tt, (s, tr ++ map (fun k => Plot t (nth k (data W) [])) ks)).
Proof.
  intros (Hs & Hl & Hr) Ht Hks.
  set (body := fun k => row <~ or_index_error (getrow W k) ;;
                        plt_plot (rs := rs) t row).
  assert (Hbody : forall k tr, (k < nr)%nat ->
             body k (s, tr) =
             (inl tt, (s, tr ++ [Plot t (nth k (data W) [])]))).
  { intros k tr Hk. subst body. cbv beta. unfold sbind.
    assert (Hrow : getrow W k = Some (nth k (data W) [])).
    { unfold getrow. rewrite Hs. cbn [fst].
      destruct (Nat.ltb_spec k nr); [|lia].
      apply nth_error_nth'. lia. }
    rewrite Hrow. cbn [or_index_error sret]. unfold plt_plot.
    assert (Hlen : length (nth k (data W) []) = c).
    { rewrite Forall_forall in Hr. apply Hr, nth_In. lia. }
    rewrite Ht, Hlen, Nat.eqb_refl. reflexivity. }
  induction Hks as [|k ks Hk Hks IH]; intros tr.
  - cbn. now rewrite app_nil_r.
  - cbn [for_each map]. unfold sbind. rewrite Hbody by exact Hk.
    rewrite IH. now rewrite <- app_assoc.
Qed.

End ScriptFacts.

Lemma sbind_step {St A B : Type} (c : Script St A) (k : A -> Script St B)
  (w w' : St) (a : A) :
  c w = (inl a, w') -> sbind c k w = k a w'.
Proof. intros Hc. unfold sbind. now rewrite Hc. Qed.

Lemma sbind_raise {St A B : Type} (c : Script St A) (k : A -> Script St B)
  (w w' : St) (e : script_exn) :
  c w = (inr e, w') -> sbind c k w = (inr e, w').
Proof. intros Hc. unfold sbind. now rewrite Hc. Qed.

Section ScriptRuns.

Context {F : Type} `{GridScalar F}.

(** [np.linspace] returns as many samples as it is asked for. *)
Lemma np_linspace_length (start stop : F) (num : Z) :
  (0 <= num)%Z ->
  exists t, np_linspace start stop num = Returned t /\
            length t = Z.to_nat num.
Proof.
  intros Hnum. unfold np_linspace.
  destruct (Z.ltb_spec num 0); [lia|].
  eexists. split; [reflexivity|].
  set (y := map (fun v => fadd v start) _).
  assert (Hy : length y = Z.to_nat num).
  { subst y. rewrite length_map.
    destruct (0 <? num - 1)%Z; [destruct (fis_zero _)|];
      now rewrite length_map; unfold np_arange;
      rewrite length_map, length_seq. }
  destruct (Z.ltb_spec 1 num); [|exact Hy].
  rewrite length_app, removelast_firstn_len, length_firstn. cbn [length]. lia.
Qed.

Variable rs : RandomSource F.

(** The script after a call of [brown] that returned: the loop and the
    two indexings cannot fail. *)
Lemma script_after_brown (n : Z) (T : F) (N N_ens : Z)
  (s s' : rng_state rs) (tr : list (event F)) (W dW : ndarray F) :
  (0 < N)%Z ->
  brown rs T N N_ens (seed rs n s) = (Returned (W, dW), s') ->
  exists t,
    np_linspace fzero (of_int 1) (N + 1) = Returned t /\
    length t = Z.to_nat (N + 1) /\
    has_shape W (Z.to_nat N_ens) (Z.to_nat (N + 1)) /\
    script rs n T N N_ens (s, tr) =
    (inl tt,
     (s', tr ++ map (fun k => Plot t (nth k (data W) []))
                    (seq 0 (Z.to_nat N_ens))
             ++ [Print (fdiv (sum_of_squares
                                (map (fun row => nth (Z.to_nat N) row fzero)
                                     (data W)))
                             (of_int N_ens));
                 Show])).
Proof.
  intros HN Hrun.
  destruct (np_linspace_length fzero (of_int 1) (N + 1)) as (t & Ht & Hlen);
    [lia|].
  assert (Hshape : has_shape W (Z.to_nat N_ens) (Z.to_nat (N + 1))).
  { destruct (brown_returned_inv _ _ _ _ _ _ _ _ Hrun)
      as (_ & _ & _ & _ & Hset).
    destruct (setitem_zeros_any _ _ _ _ Hset) as (Hs & tails & Htl & Hd).
    split; [exact Hs|]. rewrite Hd. split.
    - now rewrite length_map, length_seq.
    - rewrite Forall_map, Forall_forall. intros k _.
      now apply firstn_1_repeat_length. }
  exists t. split; [exact Ht|]. split; [exact Hlen|]. split; [exact Hshape|].
  unfold script.
  erewrite sbind_step by reflexivity.
  erewrite sbind_step by (unfold on_source, lift; cbn [fst snd];
                          rewrite Ht; reflexivity).
  erewrite sbind_step by (unfold on_source; cbn [fst snd do_seed];
                          rewrite Hrun; reflexivity).
  cbn [fst snd].
  erewrite sbind_step.
  2:{ apply (plot_loop rs t W (Z.to_nat N_ens) (Z.to_nat (N + 1)));
        [exact Hshape|exact Hlen|].
      rewrite Forall_forall. intros k Hk. apply in_seq in Hk. lia. }
  assert (Hlast : last_column W =
                  Some (map (fun row => nth (Z.to_nat N) row fzero) (data W))).
  { unfold last_column. destruct Hshape as (Hs & _). rewrite Hs. cbn [snd].
    replace (Z.to_nat (N + 1)) with (S (Z.to_nat N)) by lia. reflexivity. }
  rewrite Hlast. cbn [or_index_error].
  erewrite sbind_step by reflexivity.
  erewrite sbind_step by reflexivity.
  unfold emit. cbn [fst snd]. now rewrite <- !app_assoc.
Qed.

(** X8: the script adds no failure of its own.  With a positive step
    count and any random source, it ends normally whenever the call of
    [brown] returns, having plotted one curve per ensemble member
    against a time grid of the same length, printed one number and shown
    the figure; and when [brown] raises, the script ends with that
    exception and no output. *)
Theorem script_fails_only_in_brown (n : Z) (T : F) (N N_ens : Z)
  (s : rng_state rs) (tr : list (event F)) :
  (0 < N)%Z ->
  match brown rs T N N_ens (seed rs n s) with
  | (Returned (W, _), s') =>
      exists t v,
        length t = Z.to_nat (N + 1) /\
        Forall (fun row => length row = length t) (data W) /\
        script rs n T N N_ens (s, tr) =
        (inl tt,
         (s', tr ++ map (fun k => Plot t (nth k (data W) []))
                        (seq 0 (Z.to_nat N_ens))
                 ++ [Print v; Show]))
  | (Raised e, s') =>
      script rs n T N N_ens (s, tr) = (inr (Builtin e), (s', tr))
  end.
Proof.
  intros HN.
  destruct (brown rs T N N_ens (seed rs n s)) as [[[W dW]|e] s'] eqn:Hrun.
  - destruct (script_after_brown n T N N_ens s s' tr W dW HN Hrun)
      as (t & _ & Hlen & (_ & _ & Hrows) & Hscript).
    exists t. eexists. split; [exact Hlen|]. split; [|exact Hscript].
    now rewrite Hlen.
  - destruct (np_linspace_length fzero (of_int 1) (N + 1)) as (t & Ht & _);
      [lia|].
    unfold script.
    erewrite sbind_step by reflexivity.
    erewrite sbind_step by (unfold on_source, lift; cbn [fst snd];
                            rewrite Ht; reflexivity).
    apply sbind_raise. unfold on_source. cbn [fst snd do_seed].
    now rewrite Hrun.
Qed.

End ScriptRuns.

Lemma script_fails_only_in_brown_witness :
  (0 < 500)%Z /\
  match brown (numpy_random ramp_gauss) 1 500 100
              (np_seed ramp_gauss 0 ramp_state) with
  | (Returned (W, _), s') =>
      exists t v,
        length t = Z.to_nat (500 + 1) /\
        Forall (fun row => length row = length t) (data W) /\
        main (numpy_random ramp_gauss) (ramp_state, []) =
        (inl tt,
         (s', [] ++ map (fun k => Plot t (nth k (data W) []))
                        (seq 0 (Z.to_nat 100))
                 ++ [Print v; Show]))
  | (Raised e, s') =>
      main (numpy_random ramp_gauss) (ramp_state, []) =
      (inr (Builtin e), (s', []))
  end.
Proof.
  split; [lia|].
  apply (script_fails_only_in_brown (numpy_random ramp_gauss) 0 1 500 100
           ramp_state []).
  lia.
Defined.

(** X9: the script starts by seeding, so what it plots and prints, and
    the state it leaves the generator in, do not depend on the state the
    generator was in before. *)
Theorem script_forgets_generator_state {F : Type} `{GridScalar F}
  (gauss : Z -> nat -> F) (n : Z) (T : F) (N N_ens : Z)
  (s1 s2 : mt_state F) (tr : list (event F)) :
  script (numpy_random gauss) n T N N_ens (s1, tr) =
  script (numpy_random gauss) n T N N_ens (s2, tr).
Proof.
  unfold script.
  rewrite !(sbind_step (do_seed (numpy_random gauss) n) _ _
              (np_seed gauss n s1, tr) tt) by reflexivity.
  reflexivity.
Qed.

(** ** The script over the reals *)

Lemma sum_of_squares_nonneg {A : Type} (g : A -> R) (l : list A) :
  forall a : R, 0 <= a ->
    0 <= fold_left Rplus (map (fun x => g x * g x) l) a.
Proof.
  induction l as [|x l IH]; intros a Ha; cbn [map fold_left]; [exact Ha|].
  apply IH. pose proof (Rle_0_sqr (g x)) as Hsq. unfold Rsqr in Hsq. lra.
Qed.

(** X11: with NumPy's generator and a valid ensemble, the number the
    script prints is the mean, over the ensemble, of the squared sum of
    each row of increments, that is of the squared end points of the
    paths; it is never negative. *)
Theorem script_prints_mean_square (gauss : Z -> nat -> R) (n : Z) (T : R)
  (N N_ens : Z) (s : mt_state R) (tr : list (event R)) :
  0 < T -> (0 < N)%Z -> (0 < N_ens)%Z ->
  exists W dW s' t v,
    brown (numpy_random gauss) T N N_ens (np_seed gauss n s) =
    (Returned (W, dW), s') /\
    script (numpy_random gauss) n T N N_ens (s, tr) =
    (inl tt,
     (s', tr ++ map (fun k => Plot t (nth k (data W) []))
                    (seq 0 (Z.to_nat N_ens))
             ++ [Print v; Show])) /\
    v = fold_left Rplus
          (map (fun row => fold_left Rplus row 0 * fold_left Rplus row 0)
               (data dW)) 0 / IZR N_ens /\
    0 <= v.
Proof.
  intros _ HN HE.
  pose proof (brown_numpy_run gauss T N N_ens (np_seed gauss n s)
                ltac:(lia) ltac:(lia)) as Hrun.
  cbv zeta in Hrun.
  destruct (script_after_brown (numpy_random gauss) n T N N_ens s _ tr _ _
              HN Hrun) as (t & _ & _ & _ & Hscript).
  pose proof (normal_rows_shape 0 (sqrt (T / IZR N)) (Z.to_nat N_ens)
                (Z.to_nat N) (np_seed gauss n s)) as (_ & _ & Hr).
  cbn [data] in Hr.
  eexists _, _, _, t, _. split; [exact Hrun|]. split; [exact Hscript|].
  split.
  - cbn [data fdiv of_int R_scalar]. unfold Rdiv. f_equal.
    unfold sum_of_squares, fsum. rewrite !map_map.
    cbn [fadd fzero fmul R_scalar]. f_equal.
    apply map_ext_in. intros row Hin.
    rewrite Forall_forall in Hr. specialize (Hr row Hin).
    assert (Hend : nth (Z.to_nat N) (0 :: cumsum row) 0 =
                   fold_left Rplus row 0).
    { refine (eq_trans (path_row_prefix_sum (F := R) 0 row (Z.to_nat N) _) _);
        [lia|].
      rewrite <- Hr, firstn_all. reflexivity. }
    cbn [fzero R_scalar] in *. now rewrite Hend.
  - cbn [data fdiv of_int R_scalar]. unfold Rdiv.
    apply Rmult_le_pos.
    + unfold sum_of_squares, fsum. rewrite !map_map.
      cbn [fadd fzero fmul R_scalar].
      apply (sum_of_squares_nonneg
               (fun row => nth (Z.to_nat N) (0 :: cumsum row) 0)).
      apply Rle_refl.
    + left. apply Rinv_0_lt_compat. apply IZR_lt. lia.
Qed.

Lemma script_prints_mean_square_witness :
  0 < 1 /\ (0 < 500)%Z /\ (0 < 100)%Z /\
  exists W dW s' t v,
    brown (numpy_random ramp_gauss) 1 500 100 (np_seed ramp_gauss 0 ramp_state) =
    (Returned (W, dW), s') /\
    main (numpy_random ramp_gauss) (ramp_state, []) =
    (inl tt,
     (s', [] ++ map (fun k => Plot t (nth k (data W) []))
                    (seq 0 (Z.to_nat 100))
             ++ [Print v; Show])) /\
    v = fold_left Rplus
          (map (fun row => fold_left Rplus row 0 * fold_left Rplus row 0)
               (data dW)) 0 / IZR 100 /\
    0 <= v.
Proof.
  split; [lra|]. split; [lia|]. split; [lia|].
  apply (script_prints_mean_square ramp_gauss 0 1 500 100 ramp_state []);
    [lra|lia|lia].
Defined.
